(** * API documentation generator ([api_docs.py]): embedding and properties

    A shallow embedding of [APIDocumentationGenerator]: the decorator
    inspection and record construction of [_parse_endpoint], the tree walk
    of [parse_fastapi_app], the docstring interpreter [_parse_docstring],
    the annotation renderer [_get_type_hint] and the two emitters
    [generate_openapi_spec] and [generate_markdown_docs].

    Conventions.
    - The [ast] module is the one of CPython 3.9 to 3.13: the slice of a
      [Subscript] is the index expression itself, [ast.Str] is the class
      of [Constant] nodes holding a [str], and [Constant.s] is an alias of
      [Constant.value].
    - A Python [str] is a Rocq [string], read as ASCII text.
    - Literal values are [None], booleans, non-negative integers, strings
      and [Ellipsis]; float, complex and bytes literals are not modelled.
    - A Python [dict] is an association list in insertion order.
    - [self.endpoints] is threaded through a state-and-exception monad;
      an exception does not roll the state back.  Calls to [logger.error]
      have no effect on the state and are left out. *)

From Stdlib Require Import Bool Arith NArith List Ascii String Lia.
From Stdlib Require Decimal DecimalString DecimalPos DecimalN.
Import ListNotations.

Set Warnings "-register-all".

Local Open Scope string_scope.
Local Open Scope list_scope.

(** ** Python strings *)

Module PyStr.

(** [str.isspace] on ASCII: TAB..CR, FS..US and the blank. *)
Definition is_space (c : ascii) : bool :=
  let n := nat_of_ascii c in
  ((9 <=? n)%nat && (n <=? 13)%nat) || ((28 <=? n)%nat && (n <=? 32)%nat).

Definition is_upper (c : ascii) : bool :=
  let n := nat_of_ascii c in (65 <=? n)%nat && (n <=? 90)%nat.

Definition is_lower (c : ascii) : bool :=
  let n := nat_of_ascii c in (97 <=? n)%nat && (n <=? 122)%nat.

Definition is_digit (c : ascii) : bool :=
  let n := nat_of_ascii c in (48 <=? n)%nat && (n <=? 57)%nat.

Definition is_alpha (c : ascii) : bool := is_upper c || is_lower c.

(** The class [\w] of [re] on ASCII. *)
Definition is_word (c : ascii) : bool :=
  is_alpha c || is_digit c || Ascii.eqb c "_".

Definition lower_char (c : ascii) : ascii :=
  if is_upper c then ascii_of_nat (nat_of_ascii c + 32) else c.

Definition upper_char (c : ascii) : ascii :=
  if is_lower c then ascii_of_nat (nat_of_ascii c - 32) else c.

Fixpoint map_chars (f : ascii -> ascii) (s : string) : string :=
  match s with
  | EmptyString => EmptyString
  | String c s' => String (f c) (map_chars f s')
  end.

(** [s.lower()] and [s.upper()]. *)
Definition lower (s : string) : string := map_chars lower_char s.
Definition upper (s : string) : string := map_chars upper_char s.

Fixpoint take_while (p : ascii -> bool) (s : string) : string :=
  match s with
  | EmptyString => EmptyString
  | String c s' => if p c then String c (take_while p s') else EmptyString
  end.

Fixpoint drop_while (p : ascii -> bool) (s : string) : string :=
  match s with
  | EmptyString => EmptyString
  | String c s' => if p c then drop_while p s' else s
  end.

Definition is_empty (s : string) : bool :=
  match s with EmptyString => true | _ => false end.

Definition lstrip (s : string) : string := drop_while is_space s.

Fixpoint rstrip (s : string) : string :=
  match s with
  | EmptyString => EmptyString
  | String c s' =>
      let r := rstrip s' in
      if is_space c && is_empty r then EmptyString else String c r
  end.

(** [s.strip()]. *)
Definition strip (s : string) : string := rstrip (lstrip s).

(** [s.split(sep)] for a one-character separator: never an empty list. *)
Fixpoint split (sep : ascii) (s : string) : list string :=
  match s with
  | EmptyString => [EmptyString]
  | String c s' =>
      if Ascii.eqb c sep then EmptyString :: split sep s'
      else match split sep s' with
           | [] => [String c EmptyString]
           | w :: ws => String c w :: ws
           end
  end.

(** [s.startswith(p)]. *)
Definition startswith (s p : string) : bool := String.prefix p s.

(** [needle in s]. *)
Fixpoint contains (needle s : string) : bool :=
  String.prefix needle s ||
  match s with
  | EmptyString => false
  | String _ s' => contains needle s'
  end.

(** [sep.join(parts)]. *)
Definition join (sep : string) (parts : list string) : string :=
  String.concat sep parts.

Definition last_char (s : string) : string :=
  match List.rev (list_ascii_of_string s) with
  | [] => EmptyString
  | c :: _ => String c EmptyString
  end.

(** [str(n)] for a non-negative [int]. *)
Definition of_N (n : N) : string :=
  DecimalString.NilEmpty.string_of_uint (N.to_uint n).

End PyStr.

(** ** Literal values *)

Inductive constant : Type :=
| CNone
| CBool (b : bool)
| CInt (n : N)
| CStr (s : string)
| CEllipsis.

(** Truth value of a literal, as tested by [if path and method]. *)
Definition truthy (v : constant) : bool :=
  match v with
  | CNone => false
  | CBool b => b
  | CInt n => negb (N.eqb n 0)
  | CStr s => negb (PyStr.is_empty s)
  | CEllipsis => true
  end.

(** [str(v)]. *)
Definition py_str (v : constant) : string :=
  match v with
  | CNone => "None"
  | CBool true => "True"
  | CBool false => "False"
  | CInt n => PyStr.of_N n
  | CStr s => s
  | CEllipsis => "Ellipsis"
  end.

(** Equality of literals as dict keys: [True == 1] and [False == 0]. *)
Definition as_int (v : constant) : option N :=
  match v with
  | CBool true => Some 1%N
  | CBool false => Some 0%N
  | CInt n => Some n
  | _ => None
  end.

Definition py_eqb (a b : constant) : bool :=
  match a, b with
  | CNone, CNone => true
  | CEllipsis, CEllipsis => true
  | CStr s, CStr t => String.eqb s t
  | _, _ =>
      match as_int a, as_int b with
      | Some m, Some n => N.eqb m n
      | _, _ => false
      end
  end.

(** ** Syntax trees *)

Inductive expr : Type :=
| Name (id : string)
| Constant (value : constant)
| Attribute (value : expr) (attr : string)
| Subscript (value : expr) (slice : expr)
| Call (func : expr) (args : list expr) (keywords : list (option string * expr))
| Tuple (elts : list expr)
| BinOp (left : expr) (op : string) (right : expr)
| OtherExpr (kind : string).

Record arg : Type := mk_arg {
  arg_name : string;
  annotation : option expr
}.

Record arguments : Type := mk_arguments {
  posonlyargs : list arg;
  args : list arg;
  kwonlyargs : list arg
}.

(** Statements.  [Compound] stands for every other node that holds
    statements (if, for, while, with, try, an except handler, a match
    case) with the nested nodes in field order; [Simple] for one that
    holds none. *)
Inductive stmt : Type :=
| FunctionDef (name : string) (fargs : arguments) (body : list stmt)
    (decorator_list : list expr) (returns : option expr)
| AsyncFunctionDef (name : string) (fargs : arguments) (body : list stmt)
    (decorator_list : list expr) (returns : option expr)
| ClassDef (name : string) (body : list stmt) (decorator_list : list expr)
| Expr (value : expr)
| Compound (nested : list stmt)
| Simple.

(** The fields of a [FunctionDef] node, as [_parse_endpoint] receives it. *)
Record function_def : Type := mk_function_def {
  fd_name : string;
  fd_args : arguments;
  fd_body : list stmt;
  fd_decorator_list : list expr;
  fd_returns : option expr
}.

(** ** Type-annotation renderer *)

(** [_get_type_hint]. *)
Fixpoint _get_type_hint (node : expr) : string :=
  match node with
  | Name id => id
  | Subscript value slice =>
      _get_type_hint value ++ "[" ++ _get_type_hint slice ++ "]"
  | Constant value => py_str value
  | _ => "Any"
  end.

(** ** Dictionaries *)

Module Dict.
Section Dict.
Context {K V : Type}.
Variable eqb : K -> K -> bool.

(** [d.get(k)]: [None] when the key is absent. *)
Fixpoint get (d : list (K * V)) (k : K) : option V :=
  match d with
  | [] => None
  | (k', v) :: d' => if eqb k' k then Some v else get d' k
  end.

(** [k in d]. *)
Definition mem (d : list (K * V)) (k : K) : bool :=
  match get d k with Some _ => true | None => false end.

(** [d[k] = v]: an existing entry keeps its place and its key. *)
Fixpoint set (d : list (K * V)) (k : K) (v : V) : list (K * V) :=
  match d with
  | [] => [(k, v)]
  | (k', v') :: d' =>
      if eqb k' k then (k', v) :: d' else (k', v') :: set d' k v
  end.

End Dict.
End Dict.

(** ** Docstring interpreter *)

Definition nl_char : ascii := ascii_of_nat 10.
Definition nl : string := String nl_char EmptyString.

Record ParsedDoc : Type := mk_ParsedDoc {
  doc_description : string;
  doc_parameters : list (string * string);
  doc_returns : string;
  doc_raises : list string
}.

Inductive section : Type := SDescription | SParameters | SReturns | SRaises.

(** The groups 1 and 2 of [re.match(r'\s*(\w+)\s*:\s*(.+)', line)] on a
    line without line feed, [None] when there is no match.  Group 2 takes
    the rest of the line after the blanks that follow the colon; when only
    blanks follow, the matcher gives the last of them back to group 2. *)
Definition param_match (line : string) : option (string * string) :=
  let s0 := PyStr.drop_while PyStr.is_space line in
  let name := PyStr.take_while PyStr.is_word s0 in
  if PyStr.is_empty name then None
  else
    match PyStr.drop_while PyStr.is_space (PyStr.drop_while PyStr.is_word s0) with
    | String ":" s2 =>
        let ws := PyStr.take_while PyStr.is_space s2 in
        let s3 := PyStr.drop_while PyStr.is_space s2 in
        if negb (PyStr.is_empty s3) then Some (name, s3)
        else if negb (PyStr.is_empty ws) then Some (name, PyStr.last_char ws)
        else None
    | _ => None
    end.

(** Which header a trimmed line is, if any. *)
Definition header_of (line : string) : option section :=
  if PyStr.startswith (PyStr.lower line) "parameters:" then Some SParameters
  else if PyStr.startswith (PyStr.lower line) "returns:" then Some SReturns
  else if PyStr.startswith (PyStr.lower line) "raises:" then Some SRaises
  else None.

(** What a trimmed, non-empty, non-header line does to the sections. *)
Definition add_line (current_section : section) (line : string)
    (sections : ParsedDoc) : ParsedDoc :=
  match current_section with
  | SDescription =>
      {| doc_description := doc_description sections ++ (line ++ " ");
         doc_parameters := doc_parameters sections;
         doc_returns := doc_returns sections;
         doc_raises := doc_raises sections |}
  | SParameters =>
      match param_match line with
      | Some (k, v) =>
          {| doc_description := doc_description sections;
             doc_parameters := Dict.set String.eqb (doc_parameters sections) k v;
             doc_returns := doc_returns sections;
             doc_raises := doc_raises sections |}
      | None => sections
      end
  | SReturns =>
      {| doc_description := doc_description sections;
         doc_parameters := doc_parameters sections;
         doc_returns := doc_returns sections ++ (line ++ " ");
         doc_raises := doc_raises sections |}
  | SRaises =>
      {| doc_description := doc_description sections;
         doc_parameters := doc_parameters sections;
         doc_returns := doc_returns sections;
         doc_raises := doc_raises sections ++ [line] |}
  end.

(** One turn of the loop [for line in lines] of [_parse_docstring]. *)
Definition docstring_step (st : section * ParsedDoc) (raw : string)
    : section * ParsedDoc :=
  let line := PyStr.strip raw in
  match header_of line with
  | Some s => (s, snd st)
  | None =>
      if negb (PyStr.is_empty line) then (fst st, add_line (fst st) line (snd st))
      else st
  end.

Definition empty_sections : ParsedDoc :=
  {| doc_description := ""; doc_parameters := [];
     doc_returns := ""; doc_raises := [] |}.

(** [_parse_docstring]. *)
Definition _parse_docstring (docstring : string) : ParsedDoc :=
  snd (fold_left docstring_step (PyStr.split nl_char docstring)
         (SDescription, empty_sections)).

(** ** Endpoint records and the Catalog *)

Record parameter : Type := mk_parameter {
  param_name : string;
  param_type : option string;
  param_required : bool
}.

(** The field [description] holds the parsed docstring, or the empty
    string when the function has none. *)
Inductive description_value : Type :=
| DescEmpty
| DescDoc (d : ParsedDoc).

(** [APIEndpoint].  [path] holds whatever literal the decorator gave;
    [response] is the dict with the one optional key ['type']. *)
Record APIEndpoint : Type := mk_APIEndpoint {
  path : constant;
  method : string;
  description : description_value;
  parameters : list parameter;
  response : option string;
  auth_required : bool
}.

(** [self.endpoints]. *)
Definition Catalog : Type := list APIEndpoint.

(** ** Exceptions and state *)

Inductive exn : Type := SyntaxError | AttributeError | TypeError.

Inductive result (A : Type) : Type :=
| Ok (a : A)
| Raise (e : exn).
Arguments Ok {A} a.
Arguments Raise {A} e.

Definition M (A : Type) : Type := Catalog -> result A * Catalog.

Definition ret {A} (a : A) : M A := fun cat => (Ok a, cat).

Definition bind {A B} (m : M A) (f : A -> M B) : M B :=
  fun cat =>
    match m cat with
    | (Ok a, cat') => f a cat'
    | (Raise e, cat') => (Raise e, cat')
    end.

Definition lift {A} (r : result A) : M A := fun cat => (r, cat).

(** [try: m  except Exception as e: h e]. *)
Definition try_except {A} (m : M A) (h : exn -> M A) : M A :=
  fun cat =>
    match m cat with
    | (Ok a, cat') => (Ok a, cat')
    | (Raise e, cat') => h e cat'
    end.

(** [self.endpoints.append(endpoint)]. *)
Definition append_endpoint (endpoint : APIEndpoint) : M unit :=
  fun cat => (Ok tt, cat ++ [endpoint]).

Declare Scope py_scope.
Delimit Scope py_scope with py.
Notation "x <- m ;; k" := (bind m (fun x => k))
  (at level 100, m at next level, right associativity) : py_scope.
Notation "m ;;; k" := (bind m (fun _ => k))
  (at level 100, right associativity) : py_scope.

(** [for x in l: f x]. *)
Fixpoint for_each {X} (l : list X) (f : X -> M unit) : M unit :=
  match l with
  | [] => ret tt
  | x :: l' => (f x ;;; for_each l' f)%py
  end.

(** ** Decorator inspection *)

(** The locals [path], [method] and [auth_required] of [_parse_endpoint];
    [None] is [CNone] for [path] and [None] for [method]. *)
Record deco_vars : Type := mk_deco_vars {
  v_path : constant;
  v_method : option string;
  v_auth : bool
}.

Definition initial_vars : deco_vars :=
  {| v_path := CNone; v_method := None; v_auth := false |}.

(** [for arg in decorator.args: if isinstance(arg, ast.Str): path = arg.s]. *)
Definition scan_args (call_args : list expr) (p : constant) : constant :=
  fold_left
    (fun p a => match a with Constant (CStr s) => CStr s | _ => p end)
    call_args p.

Definition kw_is_path (k : option string) : bool :=
  match k with Some k => String.eqb k "path" | None => false end.

(** [for kw in decorator.keywords: if kw.arg == 'path': path = kw.value.s];
    only a [Constant] node has the attribute [s]. *)
Fixpoint scan_keywords (kws : list (option string * expr)) (p : constant)
    : result constant :=
  match kws with
  | [] => Ok p
  | (k, v) :: rest =>
      if kw_is_path k then
        match v with
        | Constant c => scan_keywords rest c
        | _ => Raise AttributeError
        end
      else scan_keywords rest p
  end.

(** The body of [for decorator in node.decorator_list]. *)
Definition inspect_decorator (vars : deco_vars) (decorator : expr)
    : result deco_vars :=
  match decorator with
  | Call (Attribute _ attr) call_args keywords =>
      match scan_keywords keywords (scan_args call_args (v_path vars)) with
      | Ok p =>
          Ok {| v_path := p; v_method := Some (PyStr.lower attr);
                v_auth := v_auth vars |}
      | Raise e => Raise e
      end
  | Call (Name id) _ _ =>
      if String.eqb id "requires_auth"
      then Ok {| v_path := v_path vars; v_method := v_method vars;
                 v_auth := true |}
      else Ok vars
  | _ => Ok vars
  end.

Fixpoint inspect_decorators (decorators : list expr) (vars : deco_vars)
    : result deco_vars :=
  match decorators with
  | [] => Ok vars
  | d :: rest =>
      match inspect_decorator vars d with
      | Ok vars' => inspect_decorators rest vars'
      | Raise e => Raise e
      end
  end.

Definition method_truthy (m : option string) : bool :=
  match m with Some s => negb (PyStr.is_empty s) | None => false end.

Definition method_text (m : option string) : string :=
  match m with Some s => s | None => "" end.

(** [if path and method]. *)
Definition determined (vars : deco_vars) : bool :=
  truthy (v_path vars) && method_truthy (v_method vars).

(** ** Single-endpoint extractor *)

Definition parameter_of (a : arg) : parameter :=
  {| param_name := arg_name a;
     param_type := option_map _get_type_hint (annotation a);
     param_required := true |}.

(** [for arg in node.args.args[1:]]. *)
Definition build_parameters (a : arguments) : list parameter :=
  map parameter_of (tl (args a)).

Section Extraction.

(** [inspect.cleandoc], applied by [ast.get_docstring]. *)
Variable cleandoc : string -> string.

(** [ast.parse], giving the body of the module or raising. *)
Variable ast_parse : string -> result (list stmt).

(** [ast.get_docstring(node)]. *)
Definition get_docstring (body : list stmt) : option string :=
  match body with
  | Expr (Constant (CStr text)) :: _ => Some (cleandoc text)
  | _ => None
  end.

(** [self._parse_docstring(docstring) if docstring else ""]. *)
Definition describe (node : function_def) : description_value :=
  match get_docstring (fd_body node) with
  | Some docstring =>
      if PyStr.is_empty docstring then DescEmpty
      else DescDoc (_parse_docstring docstring)
  | None => DescEmpty
  end.

Definition build_endpoint (node : function_def) (vars : deco_vars)
    : APIEndpoint :=
  {| path := v_path vars;
     method := method_text (v_method vars);
     description := describe node;
     parameters := build_parameters (fd_args node);
     response := option_map _get_type_hint (fd_returns node);
     auth_required := v_auth vars |}.

(** The [try] block of [_parse_endpoint]. *)
Definition _parse_endpoint_body (node : function_def) : M unit :=
  (vars <- lift (inspect_decorators (fd_decorator_list node) initial_vars) ;;
   if determined vars then append_endpoint (build_endpoint node vars)
   else ret tt)%py.

(** [_parse_endpoint]; [class_name] is not used. *)
Definition _parse_endpoint (node : function_def)
    (class_name : option string) : M unit :=
  try_except (_parse_endpoint_body node) (fun _ => ret tt).

(** [_parse_router_class]. *)
Definition _parse_router_class (name : string) (body : list stmt) : M unit :=
  for_each body (fun item =>
    match item with
    | FunctionDef n a b d r =>
        _parse_endpoint (mk_function_def n a b d r) (Some name)
    | _ => ret tt
    end).

(** The nodes below a statement, in field order. *)
Definition children (s : stmt) : list stmt :=
  match s with
  | FunctionDef _ _ b _ _ => b
  | AsyncFunctionDef _ _ b _ _ => b
  | ClassDef _ b _ => b
  | Compound l => l
  | _ => []
  end.

Fixpoint stmt_size (s : stmt) : nat :=
  let fix forest (l : list stmt) : nat :=
    match l with
    | [] => 0
    | c :: cs => stmt_size c + forest cs
    end in
  S (match s with
     | FunctionDef _ _ b _ _ => forest b
     | AsyncFunctionDef _ _ b _ _ => forest b
     | ClassDef _ b _ => forest b
     | Compound l => forest l
     | _ => 0
     end).

Definition forest_size (l : list stmt) : nat :=
  fold_right (fun s n => stmt_size s + n) 0 l.

(** [ast.walk]: pop the first node of the queue, put its children at
    the end, yield it.  Expression nodes hold no statement and are left
    out of the queue. *)
Fixpoint walk_queue (fuel : nat) (todo : list stmt) : list stmt :=
  match fuel with
  | 0 => []
  | S fuel' =>
      match todo with
      | [] => []
      | node :: rest => node :: walk_queue fuel' (rest ++ children node)
      end
  end.

Definition walk (module_body : list stmt) : list stmt :=
  walk_queue (forest_size module_body) module_body.

(** The body of [for node in ast.walk(tree)]. *)
Definition dispatch (node : stmt) : M unit :=
  match node with
  | ClassDef name body _ => _parse_router_class name body
  | FunctionDef n a b d r => _parse_endpoint (mk_function_def n a b d r) None
  | _ => ret tt
  end.

(** The [try] block of [parse_fastapi_app]. *)
Definition parse_fastapi_app_body (code : string) : M unit :=
  (tree <- lift (ast_parse code) ;; for_each (walk tree) dispatch)%py.

(** [parse_fastapi_app]. *)
Definition parse_fastapi_app (code : string) : M unit :=
  try_except (parse_fastapi_app_body code) (fun _ => ret tt).

End Extraction.

(** ** OpenAPI emitter *)

Record oa_parameter : Type := mk_oa_parameter {
  oa_name : string;
  oa_in : string;
  oa_required : bool;
  oa_schema_type : string
}.

(** The value stored under [paths[path][method]]: [summary], [parameters],
    the schema type of the ['200'] response, and whether the key
    ['security'] is present. *)
Record operation : Type := mk_operation {
  op_summary : string;
  op_parameters : list oa_parameter;
  op_response_type : string;
  op_security : bool
}.

Definition paths_dict : Type := list (constant * list (string * operation)).

Record openapi_spec : Type := mk_openapi_spec {
  openapi : string;
  info_title : string;
  info_version : string;
  paths : paths_dict
}.

(** [endpoint.description.get('description', '')]: a [str] has no [get]. *)
Definition description_get (d : description_value) : result string :=
  match d with
  | DescDoc doc => Ok (doc_description doc)
  | DescEmpty => Raise AttributeError
  end.

(** ['path' if '{' + name + '}' in endpoint.path else 'query']: the
    operator [in] needs a [str] on its right. *)
Definition param_location (p : constant) (name : string) : result string :=
  match p with
  | CStr s =>
      Ok (if PyStr.contains ("{" ++ name ++ "}") s then "path" else "query")
  | _ => Raise TypeError
  end.

(** [param['type'].lower() if param['type'] else 'string']. *)
Definition schema_type (t : option string) : string :=
  match t with
  | Some s => if PyStr.is_empty s then "string" else PyStr.lower s
  | None => "string"
  end.

Fixpoint oa_parameters (p : constant) (params : list parameter)
    : result (list oa_parameter) :=
  match params with
  | [] => Ok []
  | param :: rest =>
      match param_location p (param_name param) with
      | Raise e => Raise e
      | Ok loc =>
          match oa_parameters p rest with
          | Raise e => Raise e
          | Ok l =>
              Ok ({| oa_name := param_name param; oa_in := loc;
                     oa_required := param_required param;
                     oa_schema_type := schema_type (param_type param) |} :: l)
          end
      end
  end.

(** [endpoint.response.get('type', 'object').lower()]. *)
Definition response_type (r : option string) : string :=
  match r with
  | Some t => PyStr.lower t
  | None => PyStr.lower "object"
  end.

Definition operation_of (endpoint : APIEndpoint) : result operation :=
  match description_get (description endpoint) with
  | Raise e => Raise e
  | Ok summary =>
      match oa_parameters (path endpoint) (parameters endpoint) with
      | Raise e => Raise e
      | Ok ps =>
          Ok {| op_summary := summary; op_parameters := ps;
                op_response_type := response_type (response endpoint);
                op_security := auth_required endpoint |}
      end
  end.

Definition path_entry (ps : paths_dict) (p : constant)
    : list (string * operation) :=
  match Dict.get py_eqb ps p with Some d => d | None => [] end.

(** The body of [for endpoint in self.endpoints] of
    [generate_openapi_spec]. *)
Definition openapi_step (ps : paths_dict) (endpoint : APIEndpoint)
    : result paths_dict :=
  let ps1 :=
    if Dict.mem py_eqb ps (path endpoint) then ps
    else Dict.set py_eqb ps (path endpoint) [] in
  match operation_of endpoint with
  | Raise e => Raise e
  | Ok op =>
      Ok (Dict.set py_eqb ps1 (path endpoint)
            (Dict.set String.eqb (path_entry ps1 (path endpoint))
               (method endpoint) op))
  end.

Fixpoint openapi_paths (endpoints : Catalog) (ps : paths_dict)
    : result paths_dict :=
  match endpoints with
  | [] => Ok ps
  | e :: rest =>
      match openapi_step ps e with
      | Raise x => Raise x
      | Ok ps' => openapi_paths rest ps'
      end
  end.

(** [generate_openapi_spec]. *)
Definition generate_openapi_spec (endpoints : Catalog) : result openapi_spec :=
  match openapi_paths endpoints [] with
  | Raise e => Raise e
  | Ok ps =>
      Ok {| openapi := "3.0.0"; info_title := "API Documentation";
            info_version := "1.0.0"; paths := ps |}
  end.

(** [spec['paths'][p][m]]. *)
Definition lookup_operation (spec : openapi_spec) (p : constant) (m : string)
    : option operation :=
  match Dict.get py_eqb (paths spec) p with
  | Some d => Dict.get String.eqb d m
  | None => None
  end.

(** ** Markdown emitter *)

Definition grouped_dict : Type := list (constant * list APIEndpoint).

(** The grouping loop of [generate_markdown_docs]. *)
Definition group_step (grouped : grouped_dict) (endpoint : APIEndpoint)
    : grouped_dict :=
  let g1 :=
    if Dict.mem py_eqb grouped (path endpoint) then grouped
    else Dict.set py_eqb grouped (path endpoint) [] in
  let l := match Dict.get py_eqb g1 (path endpoint) with
           | Some l => l
           | None => []
           end in
  Dict.set py_eqb g1 (path endpoint) (l ++ [endpoint]).

Definition group_endpoints (endpoints : Catalog) : grouped_dict :=
  fold_left group_step endpoints [].

(** [f"{param['type']}"]. *)
Definition type_text (t : option string) : string :=
  match t with Some s => s | None => "None" end.

(** One row of the parameter table. *)
Definition param_row (doc : ParsedDoc) (param : parameter) : string :=
  let desc := match Dict.get String.eqb (doc_parameters doc) (param_name param) with
              | Some d => d
              | None => ""
              end in
  ("| " ++ param_name param ++ " | " ++ type_text (param_type param) ++ " | " ++
   (if param_required param then "Yes" else "No") ++ " | " ++ desc ++ " |")%string.

Definition parameter_lines (doc : ParsedDoc) (params : list parameter)
    : list string :=
  match params with
  | [] => []
  | _ =>
      [(nl ++ "#### Parameters" ++ nl)%string;
       "| Name | Type | Required | Description |";
       "|------|------|----------|-------------|"]
      ++ map (param_row doc) params
  end.

Definition response_lines (doc : ParsedDoc) (r : option string) : list string :=
  match r with
  | Some t =>
      [(nl ++ "#### Response" ++ nl)%string;
       ("Type: " ++ t ++ nl)%string;
       ("Description: " ++ doc_returns doc ++ nl)%string]
  | None => []
  end.

Definition error_lines (doc : ParsedDoc) : list string :=
  match doc_raises doc with
  | [] => []
  | errors =>
      (nl ++ "#### Errors" ++ nl)%string
      :: map (fun error => ("- " ++ error ++ nl)%string) errors
  end.

(** The entries appended to [docs] for one endpoint; the second of them
    calls [endpoint.description.get]. *)
Definition endpoint_lines (endpoint : APIEndpoint) : result (list string) :=
  match description endpoint with
  | DescEmpty => Raise AttributeError
  | DescDoc doc =>
      Ok ([("### " ++ PyStr.upper (method endpoint) ++ nl)%string;
           (doc_description doc ++ nl)%string]
          ++ (if auth_required endpoint
              then [("**Requires Authentication**" ++ nl)%string] else [])
          ++ parameter_lines doc (parameters endpoint)
          ++ response_lines doc (response endpoint)
          ++ error_lines doc
          ++ [(nl ++ "---" ++ nl)%string])
  end.

Fixpoint endpoints_lines (endpoints : list APIEndpoint)
    : result (list string) :=
  match endpoints with
  | [] => Ok []
  | e :: rest =>
      match endpoint_lines e with
      | Raise x => Raise x
      | Ok l =>
          match endpoints_lines rest with
          | Raise x => Raise x
          | Ok l' => Ok (l ++ l')
          end
      end
  end.

(** The entries appended to [docs] for one path and its endpoints. *)
Definition group_lines (g : constant * list APIEndpoint)
    : result (list string) :=
  match endpoints_lines (snd g) with
  | Raise x => Raise x
  | Ok l => Ok (("## " ++ py_str (fst g) ++ nl)%string :: l)
  end.

Fixpoint groups_lines (grouped : grouped_dict) : result (list string) :=
  match grouped with
  | [] => Ok []
  | g :: rest =>
      match group_lines g with
      | Raise x => Raise x
      | Ok l =>
          match groups_lines rest with
          | Raise x => Raise x
          | Ok l' => Ok (l ++ l')
          end
      end
  end.

(** The list [docs] at the end of [generate_markdown_docs]. *)
Definition markdown_lines (endpoints : Catalog) : result (list string) :=
  match groups_lines (group_endpoints endpoints) with
  | Raise x => Raise x
  | Ok l => Ok (("# API Documentation" ++ nl ++ nl)%string :: l)
  end.

(** [generate_markdown_docs]. *)
Definition generate_markdown_docs (endpoints : Catalog) : result string :=
  match markdown_lines endpoints with
  | Raise x => Raise x
  | Ok docs => Ok (PyStr.join nl docs)
  end.

(** ** Re-parsing a rendered annotation *)

(** A reader for the expression syntax that a rendered annotation can
    fall in: names, the literals [None], [True], [False], decimal
    integers, attribute access and subscription, written without blanks.
    On this fragment it gives the node that [ast.parse] gives; [None]
    stands for a syntax error or for text outside the fragment. *)
Module Reparse.

Definition keywords : list string :=
  ["and"; "as"; "assert"; "async"; "await"; "break"; "class"; "continue";
   "def"; "del"; "elif"; "else"; "except"; "finally"; "for"; "from";
   "global"; "if"; "import"; "in"; "is"; "lambda"; "nonlocal"; "not";
   "or"; "pass"; "raise"; "return"; "try"; "while"; "with"; "yield"].



Fixpoint all_chars (p : ascii -> bool) (s : string) : bool :=
  match s with
  | EmptyString => true
  | String c s' => p c && all_chars p s'
  end.








End Reparse.






(** ** Notions used in the statements *)


(** A decorator that the inspection takes for a route registration: a
    call whose callee is an attribute access. *)
Definition is_route_call (decorator : expr) : bool :=
  match decorator with
  | Call (Attribute _ _) _ _ => true
  | _ => false
  end.

(** No function definition at any depth below [s], nor [s] itself,
    carries a route decorator. *)
Fixpoint route_free (s : stmt) : bool :=
  let fix all_free (l : list stmt) : bool :=
    match l with
    | [] => true
    | c :: cs => route_free c && all_free cs
    end in
  match s with
  | FunctionDef _ _ b d _ => negb (existsb is_route_call d) && all_free b
  | AsyncFunctionDef _ _ b _ _ => all_free b
  | ClassDef _ b _ => all_free b
  | Compound l => all_free l
  | _ => true
  end.

Definition is_str_literal (e : expr) : bool :=
  match e with Constant (CStr _) => true | _ => false end.

Definition is_literal (e : expr) : bool :=
  match e with Constant _ => true | _ => false end.

Definition literal_value (e : expr) : constant :=
  match e with Constant c => c | _ => CNone end.

(** The values of the keyword arguments named [path], in source order. *)
Definition path_keyword_values (kws : list (option string * expr)) : list expr :=
  map snd (filter (fun kw => kw_is_path (fst kw)) kws).

(** The path after one route decorator call, [prev] being the path that
    the earlier decorators left: the value of the last keyword [path] if
    there is one, else the last positional string literal if there is
    one, else [prev]. *)
Definition call_path (call_args : list expr)
    (kws : list (option string * expr)) (prev : constant) : constant :=
  match rev (path_keyword_values kws) with
  | v :: _ => literal_value v
  | [] =>
      match rev (filter is_str_literal call_args) with
      | a :: _ => literal_value a
      | [] => prev
      end
  end.

(** A bare function definition carrying the given decorators. *)
Definition handler (decorators : list expr) : function_def :=
  mk_function_def "handler" (mk_arguments [] [] []) [] decorators None.

Definition router_get (call_args : list expr)
    (kws : list (option string * expr)) : expr :=
  Call (Attribute (Name "router") "get") call_args kws.

Definition cache_cached : expr :=
  Call (Attribute (Name "cache") "cached") []
       [(Some "timeout", Constant (CInt 60))].



(** A top-level [def read_item(item_id: int, q: str)] under
    [@app.get("/items/{item_id}")]. *)
Definition read_item : function_def :=
  mk_function_def "read_item"
    (mk_arguments []
       [mk_arg "item_id" (Some (Name "int")); mk_arg "q" (Some (Name "str"))]
       [])
    []
    [Call (Attribute (Name "app") "get") [Constant (CStr "/items/{item_id}")] []]
    None.

Definition is_header (line : string) : bool :=
  match header_of line with Some _ => true | None => false end.

(** A trimmed line that is no header and not empty. *)
Definition is_content (line : string) : bool :=
  negb (is_header line) && negb (PyStr.is_empty line).

(** The section in force after the trimmed lines [seen]: the one named by
    the last header among them, the description when there is none. *)
Definition section_in_force (seen : list string) : section :=
  match find is_header (rev seen) with
  | Some h => match header_of h with Some s => s | None => SDescription end
  | None => SDescription
  end.

(** The content lines, each with the section in force at its position. *)
Definition assigned (lines : list string) : list (section * string) :=
  map (fun i => (section_in_force (firstn i lines), nth i lines ""))
      (filter (fun i => is_content (nth i lines ""))
              (seq 0 (List.length lines))).

Definition section_eqb (a b : section) : bool :=
  match a, b with
  | SDescription, SDescription => true
  | SParameters, SParameters => true
  | SReturns, SReturns => true
  | SRaises, SRaises => true
  | _, _ => false
  end.

(** The content lines that fall in section [sec], in order. *)
Definition lines_of (sec : section) (lines : list string) : list string :=
  map snd (filter (fun a => section_eqb (fst a) sec) (assigned lines)).

(** The lines of a docstring, trimmed. *)
Definition trimmed_lines (docstring : string) : list string :=
  map PyStr.strip (PyStr.split nl_char docstring).

(** Each text followed by a blank, all in a row. *)
Definition spaced (texts : list string) : string :=
  fold_right (fun l acc => (l ++ " " ++ acc)%string) "" texts.

(** The entries that the lines of a parameters section leave. *)
Definition parameter_entries (texts : list string) : list (string * string) :=
  fold_left
    (fun d l => match param_match l with
                | Some (k, v) => Dict.set String.eqb d k v
                | None => d
                end)
    texts [].

Definition build_sections (asg : list (section * string)) : ParsedDoc :=
  fold_left (fun doc a => add_line (fst a) (snd a) doc) asg empty_sections.

(** Equality of keys is equality up to reading a boolean as 0 or 1. *)
Definition key_of (v : constant) : constant :=
  match v with
  | CBool true => CInt 1
  | CBool false => CInt 0
  | _ => v
  end.

Definition paths_lookup (ps : paths_dict) (p : constant) (m : string)
    : option operation :=
  match Dict.get py_eqb ps p with
  | Some d => Dict.get String.eqb d m
  | None => None
  end.


Definition has_doc (e : APIEndpoint) : bool :=
  match description e with DescDoc _ => true | DescEmpty => false end.

Definition path_is_str (e : APIEndpoint) : bool :=
  match path e with CStr _ => true | _ => false end.



(** Two functions with [@router.get("/dup")], parsed in order. *)
Definition dup_record (summary : string) : APIEndpoint :=
  {| path := CStr "/dup"; method := "get";
     description :=
       DescDoc {| doc_description := summary; doc_parameters := [];
                  doc_returns := ""; doc_raises := [] |};
     parameters := []; response := None; auth_required := false |}.






(** ** Method distribution and the analysis summary *)

(** The body of the loop of [_get_methods_distribution]. *)
Definition distribution_step (distribution : list (string * nat))
    (endpoint : APIEndpoint) : list (string * nat) :=
  let m := PyStr.upper (method endpoint) in
  Dict.set String.eqb distribution m
    (match Dict.get String.eqb distribution m with
     | Some n => n
     | None => 0
     end + 1).

(** [_get_methods_distribution]. *)
Definition _get_methods_distribution (endpoints : Catalog)
    : list (string * nat) :=
  fold_left distribution_step endpoints [].

(** The dict that [analyze_api_code] returns when nothing raises. *)
Record analysis : Type := mk_analysis {
  endpoints_count : nat;
  auth_required_count : nat;
  methods_distribution : list (string * nat);
  analysis_openapi_spec : openapi_spec;
  analysis_markdown_docs : string
}.

(** Reading [self.endpoints]. *)
Definition get_endpoints : M Catalog := fun cat => (Ok cat, cat).

Section Analysis.

Variable cleandoc : string -> string.
Variable ast_parse : string -> result (list stmt).

(** The [try] block of [analyze_api_code]. *)
Definition analyze_api_code_body (code : string) : M (option analysis) :=
  (parse_fastapi_app cleandoc ast_parse code ;;;
   endpoints <- get_endpoints ;;
   spec <- lift (generate_openapi_spec endpoints) ;;
   docs <- lift (generate_markdown_docs endpoints) ;;
   ret (Some {| endpoints_count := List.length endpoints;
                auth_required_count :=
                  List.length (filter auth_required endpoints);
                methods_distribution := _get_methods_distribution endpoints;
                analysis_openapi_spec := spec;
                analysis_markdown_docs := docs |}))%py.

(** [analyze_api_code]; [None] is the empty dict of the handler. *)
Definition analyze_api_code (code : string) : M (option analysis) :=
  try_except (analyze_api_code_body code) (fun _ => ret None).

End Analysis.

(** ** Further notions used in the statements *)

(** The records that one visit of [_parse_endpoint] appends. *)
Definition function_records (cleandoc : string -> string)
    (node : function_def) : list APIEndpoint :=
  match inspect_decorators (fd_decorator_list node) initial_vars with
  | Ok vars => if determined vars then [build_endpoint cleandoc node vars]
               else []
  | Raise _ => []
  end.

(** The records that the walk appends at one node: those of a function
    definition, and for a class those of the function definitions of its
    body. *)
Definition node_records (cleandoc : string -> string) (node : stmt)
    : list APIEndpoint :=
  match node with
  | FunctionDef n a b d r =>
      function_records cleandoc (mk_function_def n a b d r)
  | ClassDef _ class_body _ =>
      flat_map (fun item =>
                  match item with
                  | FunctionDef n a b d r =>
                      function_records cleandoc (mk_function_def n a b d r)
                  | _ => []
                  end) class_body
  | _ => []
  end.

(** The decorator [@requires_auth(...)]. *)
Definition is_auth_marker (decorator : expr) : bool :=
  match decorator with
  | Call (Name id) _ _ => String.eqb id "requires_auth"
  | _ => false
  end.

(** A route decorator with a keyword [path] whose value is no literal. *)
Definition malformed_route (decorator : expr) : bool :=
  match decorator with
  | Call (Attribute _ _) _ kws =>
      negb (forallb is_literal (path_keyword_values kws))
  | _ => false
  end.

(** What every record that the extractor builds satisfies. *)
Definition record_ok (r : APIEndpoint) : bool :=
  truthy (path r) && negb (PyStr.is_empty (method r))
  && String.eqb (PyStr.lower (method r)) (method r)
  && forallb param_required (parameters r).

(** The number of records whose upper-cased method is [m]. *)
Definition count_method (m : string) (endpoints : Catalog) : nat :=
  List.length
    (filter (fun e => String.eqb (PyStr.upper (method e)) m) endpoints).

Definition sum_counts (d : list (string * nat)) : nat :=
  fold_right (fun kv acc => snd kv + acc) 0 d.

(** A record that [generate_openapi_spec] can render: it has a parsed
    docstring, and a string path unless it has no parameter. *)
Definition openapi_ok (e : APIEndpoint) : bool :=
  has_doc e &&
  (path_is_str e || match parameters e with [] => true | _ => false end).

(** The last record of the Catalog with the path [p] and the method [m]. *)
Definition last_with_key (p : constant) (m : string) (endpoints : Catalog)
    : option APIEndpoint :=
  find (fun e => py_eqb (path e) p && String.eqb (method e) m) (rev endpoints).





(** The last line among [texts] that names the parameter [k]. *)
Definition last_naming (k : string) (texts : list string) : option string :=
  find (fun l => match param_match l with
                 | Some (k', _) => String.eqb k' k
                 | None => false
                 end) (rev texts).

(** * Properties *)

(** ** The state-and-exception monad *)

Lemma try_except_never_raises (m : M unit) (cat : Catalog) :
  exists cat', try_except m (fun _ => ret tt) cat = (Ok tt, cat').
Proof.
  unfold try_except, ret.
  destruct (m cat) as [[[] | e] cat']; eauto.
Qed.


(** ** Single-endpoint extractor *)

Section ExtractorFacts.

Variable cleandoc : string -> string.

Lemma _parse_endpoint_determined node class_name cat vars :
  inspect_decorators (fd_decorator_list node) initial_vars = Ok vars ->
  determined vars = true ->
  _parse_endpoint cleandoc node class_name cat
  = (Ok tt, cat ++ [build_endpoint cleandoc node vars]).
Proof.
  intros Hi Hd.
  unfold _parse_endpoint, try_except, _parse_endpoint_body, bind, lift.
  rewrite Hi, Hd. reflexivity.
Qed.

Lemma _parse_endpoint_undetermined node class_name cat vars :
  inspect_decorators (fd_decorator_list node) initial_vars = Ok vars ->
  determined vars = false ->
  _parse_endpoint cleandoc node class_name cat = (Ok tt, cat).
Proof.
  intros Hi Hd.
  unfold _parse_endpoint, try_except, _parse_endpoint_body, bind, lift.
  rewrite Hi, Hd. reflexivity.
Qed.

Lemma _parse_endpoint_raised node class_name cat e :
  inspect_decorators (fd_decorator_list node) initial_vars = Raise e ->
  _parse_endpoint cleandoc node class_name cat = (Ok tt, cat).
Proof.
  intros Hi.
  unfold _parse_endpoint, try_except, _parse_endpoint_body, bind, lift.
  rewrite Hi. reflexivity.
Qed.

End ExtractorFacts.


(** ** The tree walk *)

Lemma route_free_children (s : stmt) :
  route_free s = true -> forallb route_free (children s) = true.
Proof.
  assert (Hfix : forall l,
    (fix all_free (l : list stmt) : bool :=
       match l with
       | [] => true
       | c :: cs => route_free c && all_free cs
       end) l = forallb route_free l).
  { induction l as [| c cs IH]; simpl; [ reflexivity | now rewrite IH ]. }
  destruct s; simpl; rewrite ?Hfix; intros H;
    try reflexivity; try assumption.
  apply andb_true_iff in H. tauto.
Qed.

Lemma walk_queue_route_free (fuel : nat) :
  forall todo, forallb route_free todo = true ->
               forallb route_free (walk_queue fuel todo) = true.
Proof.
  induction fuel as [| k IH]; intros todo H; simpl; [ reflexivity | ].
  destruct todo as [| node rest]; simpl in *; [ reflexivity | ].
  apply andb_true_iff in H. destruct H as [Hn Hr].
  rewrite Hn. simpl. apply IH.
  rewrite forallb_app, Hr. simpl. now apply route_free_children.
Qed.

Lemma forest_size_app (l1 l2 : list stmt) :
  forest_size (l1 ++ l2) = forest_size l1 + forest_size l2.
Proof.
  unfold forest_size. induction l1 as [| s l1 IH]; simpl; [ reflexivity | ].
  rewrite IH. lia.
Qed.

Lemma stmt_size_children (s : stmt) :
  stmt_size s = S (forest_size (children s)).
Proof.
  assert (Hfix : forall l,
    (fix forest (l : list stmt) : nat :=
       match l with
       | [] => 0
       | c :: cs => stmt_size c + forest cs
       end) l = forest_size l).
  { unfold forest_size.
    induction l as [| c cs IH]; simpl; [ reflexivity | now rewrite IH ]. }
  destruct s; simpl; rewrite ?Hfix; reflexivity.
Qed.

Lemma walk_queue_length (fuel : nat) :
  forall todo, forest_size todo <= fuel ->
               List.length (walk_queue fuel todo) = forest_size todo.
Proof.
  induction fuel as [| k IH]; intros todo H.
  - destruct todo as [| s l]; [ reflexivity | ].
    simpl in H. rewrite stmt_size_children in H. lia.
  - destruct todo as [| node rest]; [ reflexivity | ].
    simpl in *. rewrite stmt_size_children in *.
    rewrite IH; rewrite forest_size_app; lia.
Qed.

(** The fuel of [walk] is the number of nodes: the queue runs empty
    before the fuel does, and every node is yielded. *)
Lemma walk_length (module_body : list stmt) :
  List.length (walk module_body) = forest_size module_body.
Proof. unfold walk. now apply walk_queue_length. Qed.

(** ** Decorators that register no route *)

Lemma inspect_no_route (decorators : list expr) :
  existsb is_route_call decorators = false ->
  forall vars, exists vars',
    inspect_decorators decorators vars = Ok vars' /\
    v_path vars' = v_path vars /\ v_method vars' = v_method vars.
Proof.
  induction decorators as [| d ds IH]; intros H vars; simpl.
  - eauto.
  - simpl in H. apply orb_false_iff in H. destruct H as [Hd Hds].
    assert (Hstep : exists v, inspect_decorator vars d = Ok v /\
                              v_path v = v_path vars /\
                              v_method v = v_method vars).
    { destruct d as [ | | | | f a k | | | ]; simpl; eauto.
      destruct f; simpl in *; eauto; try discriminate.
      destruct (String.eqb id "requires_auth"); eauto. }
    destruct Hstep as (v & -> & Hp & Hm).
    destruct (IH Hds v) as (v' & -> & Hp' & Hm').
    exists v'. repeat split; congruence.
Qed.

Section WalkFacts.

Variable cleandoc : string -> string.
Variable ast_parse : string -> result (list stmt).

Lemma _parse_endpoint_no_route node class_name cat :
  existsb is_route_call (fd_decorator_list node) = false ->
  _parse_endpoint cleandoc node class_name cat = (Ok tt, cat).
Proof.
  intros H.
  destruct (inspect_no_route _ H initial_vars) as (v & Hv & Hp & _).
  apply _parse_endpoint_undetermined with v; [ assumption | ].
  unfold determined. now rewrite Hp.
Qed.

Lemma for_each_unchanged {X} (f : X -> M unit) (l : list X) (cat : Catalog) :
  (forall x, In x l -> f x cat = (Ok tt, cat)) ->
  for_each l f cat = (Ok tt, cat).
Proof.
  induction l as [| x l IH]; intros H; simpl; [ reflexivity | ].
  unfold bind. rewrite (H x (or_introl eq_refl)).
  apply IH. intros y Hy. apply H. now right.
Qed.

Lemma dispatch_route_free node cat :
  route_free node = true -> dispatch cleandoc node cat = (Ok tt, cat).
Proof.
  intros H. pose proof (route_free_children _ H) as Hc.
  destruct node; simpl in *; try reflexivity.
  - apply _parse_endpoint_no_route. simpl.
    apply andb_true_iff in H. destruct H as [H _].
    now apply negb_true_iff in H.
  - unfold _parse_router_class. apply for_each_unchanged.
    intros item Hin.
    rewrite forallb_forall in Hc. specialize (Hc item Hin).
    destruct item; try reflexivity.
    apply _parse_endpoint_no_route. simpl. simpl in Hc.
    apply andb_true_iff in Hc. destruct Hc as [Hc _].
    now apply negb_true_iff in Hc.
Qed.

Lemma _parse_router_class_never_raises name body cat :
  exists cat', _parse_router_class cleandoc name body cat = (Ok tt, cat').
Proof.
  unfold _parse_router_class. revert cat.
  induction body as [| item body IH]; intros cat; simpl.
  - unfold ret. eauto.
  - unfold bind.
    assert (H : exists c,
      (match item with
       | FunctionDef n a b d r =>
           _parse_endpoint cleandoc (mk_function_def n a b d r) (Some name)
       | _ => ret tt
       end) cat = (Ok tt, c)).
    { destruct item; unfold ret; eauto;
        unfold _parse_endpoint; apply try_except_never_raises. }
    destruct H as (c & ->). apply IH.
Qed.

Lemma dispatch_never_raises node cat :
  exists cat', dispatch cleandoc node cat = (Ok tt, cat').
Proof.
  destruct node; simpl; unfold ret; eauto.
  - unfold _parse_endpoint. apply try_except_never_raises.
  - apply _parse_router_class_never_raises.
Qed.

Lemma walk_loop_never_raises nodes cat :
  exists cat', for_each nodes (dispatch cleandoc) cat = (Ok tt, cat').
Proof.
  revert cat. induction nodes as [| node nodes IH]; intros cat; simpl.
  - unfold ret. eauto.
  - unfold bind.
    destruct (dispatch_never_raises node cat) as (c & ->). apply IH.
Qed.

End WalkFacts.

(** C2: [parse_fastapi_app] ends without an exception on every input,
    and once the text is parsed nothing raises inside its [try] block.
    When [ast.parse] raises, the Catalog is the one before the call; when
    the text parses and no function definition of the tree carries a call
    decorator with an attribute callee, an empty Catalog stays empty. *)
Theorem C2_parse_never_raises
    (cleandoc : string -> string)
    (ast_parse : string -> result (list stmt))
    (code : string) (cat : Catalog) :
  (exists cat',
     parse_fastapi_app cleandoc ast_parse code cat = (Ok tt, cat')) /\
  (forall tree, ast_parse code = Ok tree ->
     exists cat',
       parse_fastapi_app_body cleandoc ast_parse code cat = (Ok tt, cat')) /\
  (forall e, ast_parse code = Raise e ->
     parse_fastapi_app cleandoc ast_parse code cat = (Ok tt, cat)) /\
  (forall tree, ast_parse code = Ok tree ->
     forallb route_free tree = true ->
     parse_fastapi_app cleandoc ast_parse code [] = (Ok tt, [])).
Proof.
  split; [ | split; [ | split ] ].
  - unfold parse_fastapi_app. apply try_except_never_raises.
  - intros tree Ht. unfold parse_fastapi_app_body, bind, lift.
    rewrite Ht. apply walk_loop_never_raises.
  - intros e He.
    unfold parse_fastapi_app, try_except, parse_fastapi_app_body, bind, lift.
    rewrite He. reflexivity.
  - intros tree Ht Hfree.
    unfold parse_fastapi_app, try_except, parse_fastapi_app_body, bind, lift.
    rewrite Ht.
    rewrite for_each_unchanged; [ reflexivity | ].
    intros node Hin. apply dispatch_route_free.
    pose proof (walk_queue_route_free (forest_size tree) tree Hfree) as Hw.
    rewrite forallb_forall in Hw. now apply Hw.
Qed.

(** ** What one decorator call gives for the path *)

Lemma scan_args_spec (call_args : list expr) (p : constant) :
  scan_args call_args p =
  match rev (filter is_str_literal call_args) with
  | a :: _ => literal_value a
  | [] => p
  end.
Proof.
  unfold scan_args.
  induction call_args as [| a l IH] using rev_ind; [ reflexivity | ].
  rewrite fold_left_app, filter_app, rev_app_distr. simpl.
  destruct a as [ | [ | | | s | ] | | | | | | ]; simpl; try exact IH.
  reflexivity.
Qed.

Lemma scan_keywords_spec (kws : list (option string * expr)) :
  forall p,
    scan_keywords kws p =
    if forallb is_literal (path_keyword_values kws)
    then Ok match rev (path_keyword_values kws) with
            | v :: _ => literal_value v
            | [] => p
            end
    else Raise AttributeError.
Proof.
  unfold path_keyword_values.
  induction kws as [| [k v] kws IH]; intros p; simpl; [ reflexivity | ].
  destruct (kw_is_path k); simpl; [ | apply IH ].
  destruct v; simpl; try reflexivity.
  rewrite IH.
  destruct (forallb is_literal _); [ | reflexivity ].
  destruct (rev (map snd (filter _ kws))) eqn:E; simpl; reflexivity.
Qed.

Lemma inspect_decorators_app (a b : list expr) (vars : deco_vars) :
  inspect_decorators (a ++ b) vars =
  match inspect_decorators a vars with
  | Ok vars' => inspect_decorators b vars'
  | Raise e => Raise e
  end.
Proof.
  revert vars. induction a as [| d a IH]; intros vars; simpl; [ reflexivity | ].
  destruct (inspect_decorator vars d); [ apply IH | reflexivity ].
Qed.

(** C3, as the code has it: the method is the lower-cased attribute name
    of the last call decorator with an attribute callee; the path is the
    one that this decorator gives, and when it gives none, the path left
    by the earlier decorators is kept.  Within one call a keyword [path]
    wins over the positional arguments, and of several the last wins. *)
Theorem C3_last_method_latest_path
    (before : list expr) (obj : expr) (attr : string)
    (call_args : list expr) (kws : list (option string * expr))
    (after : list expr) (prev : deco_vars) :
  inspect_decorators before initial_vars = Ok prev ->
  forallb is_literal (path_keyword_values kws) = true ->
  existsb is_route_call after = false ->
  exists vars,
    inspect_decorators
      (before ++ Call (Attribute obj attr) call_args kws :: after)
      initial_vars = Ok vars /\
    v_method vars = Some (PyStr.lower attr) /\
    v_path vars = call_path call_args kws (v_path prev).
Proof.
  intros Hb Hk Ha.
  rewrite inspect_decorators_app, Hb. simpl.
  rewrite scan_keywords_spec, Hk.
  match goal with
  | |- context [inspect_decorators after ?v] =>
      destruct (inspect_no_route after Ha v) as (vars & Hv & Hp & Hm)
  end.
  exists vars. split; [ exact Hv | ]. simpl in Hp, Hm.
  split; [ exact Hm | ].
  rewrite Hp, scan_args_spec. unfold call_path.
  destruct (rev (path_keyword_values kws)); reflexivity.
Qed.

(** [@router.get("/items")] followed by [@cache.cached(timeout=60)]. *)
Lemma C3_last_method_latest_path_witness :
  inspect_decorators [router_get [Constant (CStr "/items")] []] initial_vars
  = Ok {| v_path := CStr "/items"; v_method := Some "get"; v_auth := false |} /\
  forallb is_literal
    (path_keyword_values [(Some "timeout", Constant (CInt 60))]) = true /\
  existsb is_route_call [] = false /\
  exists vars,
    inspect_decorators
      ([router_get [Constant (CStr "/items")] []] ++ cache_cached :: [])
      initial_vars = Ok vars /\
    v_method vars = Some (PyStr.lower "cached") /\
    v_path vars =
      call_path [] [(Some "timeout", Constant (CInt 60))] (CStr "/items").
Proof.
  repeat (split; [ reflexivity | ]).
  apply (C3_last_method_latest_path
           [router_get [Constant (CStr "/items")] []]
           (Name "cache") "cached" [] [(Some "timeout", Constant (CInt 60))] []
           {| v_path := CStr "/items"; v_method := Some "get";
              v_auth := false |});
    reflexivity.
Defined.

(** C3 fails as stated.  With [@router.get("/items")] followed by
    [@cache.cached(timeout=60)] the record has the method of the last
    decorator and the path of the first, while the last decorator alone
    gives no path and no record; with [@router.get("/a", "/b")] the path
    is the second positional argument; with [@router.get("/a", path="/b")]
    it is the keyword's value. *)
Lemma C3_counterexample :
  (exists r,
     _parse_endpoint (fun s => s)
       (handler [router_get [Constant (CStr "/items")] []; cache_cached])
       None [] = (Ok tt, [r]) /\
     path r = CStr "/items" /\ method r = "cached") /\
  _parse_endpoint (fun s => s) (handler [cache_cached]) None [] = (Ok tt, []) /\
  (exists r,
     _parse_endpoint (fun s => s)
       (handler [router_get [Constant (CStr "/a"); Constant (CStr "/b")] []])
       None [] = (Ok tt, [r]) /\
     path r = CStr "/b") /\
  (exists r,
     _parse_endpoint (fun s => s)
       (handler [router_get [Constant (CStr "/a")]
                            [(Some "path", Constant (CStr "/b"))]])
       None [] = (Ok tt, [r]) /\
     path r = CStr "/b").
Proof.
  repeat split; try (eexists; repeat split).
Qed.

(** ** Type-annotation renderer *)



(** ** One failing piece and the surrounding record *)



(** ** The first declared parameter *)



(** ** Docstring interpreter *)

Lemma append_assoc (a b c : string) :
  ((a ++ b) ++ c)%string = (a ++ (b ++ c))%string.
Proof. induction a as [| x a IH]; simpl; [ reflexivity | now rewrite IH ]. Qed.

Lemma append_nil_r (a : string) : (a ++ "")%string = a.
Proof. induction a as [| x a IH]; simpl; [ reflexivity | now rewrite IH ]. Qed.

Lemma spaced_snoc (texts : list string) (l : string) :
  spaced (texts ++ [l]) = (spaced texts ++ (l ++ " "))%string.
Proof.
  induction texts as [| t texts IH]; simpl.
  - reflexivity.
  - rewrite IH. now rewrite !append_assoc.
Qed.

Lemma section_in_force_snoc (seen : list string) (line : string) :
  section_in_force (seen ++ [line]) =
  match header_of line with
  | Some s => s
  | None => section_in_force seen
  end.
Proof.
  unfold section_in_force. rewrite rev_app_distr. simpl.
  destruct (is_header line) eqn:Hh; unfold is_header in Hh;
    destruct (header_of line); try discriminate; reflexivity.
Qed.

Lemma assigned_snoc (lines : list string) (line : string) :
  assigned (lines ++ [line]) =
  assigned lines ++
  (if is_content line then [(section_in_force lines, line)] else []).
Proof.
  unfold assigned.
  rewrite length_app. simpl. rewrite seq_app, filter_app, map_app. simpl.
  f_equal.
  - assert (Hf : filter (fun i => is_content (nth i (lines ++ [line]) ""))
                   (seq 0 (List.length lines))
                 = filter (fun i => is_content (nth i lines ""))
                     (seq 0 (List.length lines))).
    { apply filter_ext_in. intros i Hi. apply in_seq in Hi.
      rewrite app_nth1 by lia. reflexivity. }
    rewrite Hf. apply map_ext_in. intros i Hi.
    apply filter_In in Hi. destruct Hi as [Hi _]. apply in_seq in Hi.
    rewrite app_nth1 by lia. rewrite firstn_app.
    replace (i - List.length lines) with 0 by lia.
    simpl. now rewrite app_nil_r.
  - rewrite app_nth2 by lia. rewrite Nat.sub_diag. simpl.
    destruct (is_content line); [ | reflexivity ]. simpl.
    rewrite firstn_app, Nat.sub_diag, firstn_all. simpl.
    rewrite app_nil_r, app_nth2 by lia.
    now rewrite Nat.sub_diag.
Qed.

(** The loop of [_parse_docstring] keeps the section in force and the
    sections built from the lines assigned so far. *)
Lemma docstring_loop (raws : list string) :
  fold_left docstring_step raws (SDescription, empty_sections) =
  (section_in_force (map PyStr.strip raws),
   build_sections (assigned (map PyStr.strip raws))).
Proof.
  induction raws as [| raw raws IH] using rev_ind; [ reflexivity | ].
  rewrite fold_left_app, IH, map_app. simpl.
  rewrite section_in_force_snoc, assigned_snoc.
  unfold docstring_step, is_content, is_header. simpl.
  destruct (header_of (PyStr.strip raw)); simpl.
  - now rewrite app_nil_r.
  - destruct (PyStr.is_empty (PyStr.strip raw)); simpl.
    + now rewrite app_nil_r.
    + unfold build_sections. now rewrite fold_left_app.
Qed.

Lemma build_sections_fields (asg : list (section * string)) :
  let texts sec := map snd (filter (fun a => section_eqb (fst a) sec) asg) in
  doc_description (build_sections asg) = spaced (texts SDescription) /\
  doc_parameters (build_sections asg) = parameter_entries (texts SParameters) /\
  doc_returns (build_sections asg) = spaced (texts SReturns) /\
  doc_raises (build_sections asg) = texts SRaises.
Proof.
  induction asg as [| [sec line] asg IH] using rev_ind; simpl.
  - repeat split.
  - destruct IH as (Hd & Hp & Hr & He).
    unfold build_sections in *. rewrite fold_left_app. simpl.
    rewrite !filter_app, !map_app. simpl.
    destruct sec; simpl; rewrite ?app_nil_r, ?spaced_snoc.
    + rewrite Hd. repeat split; assumption.
    + unfold parameter_entries in *. rewrite fold_left_app. simpl.
      rewrite <- Hp.
      destruct (param_match line) as [[k v] |]; simpl;
        repeat split; assumption.
    + rewrite Hr. repeat split; assumption.
    + rewrite He. repeat split; assumption.
Qed.




(** The example of the specification. *)
Example parse_docstring_example :
  _parse_docstring
    ("Does X." ++ nl ++ "Parameters:" ++ nl ++ "foo: the foo value" ++ nl
     ++ "Returns:" ++ nl ++ "The result." ++ nl)
  = {| doc_description := "Does X. ";
       doc_parameters := [("foo", "the foo value")];
       doc_returns := "The result. ";
       doc_raises := [] |}.
Proof. reflexivity. Qed.

(** ** Dictionaries whose key equality is an equivalence *)

Section DictFacts.

Context {K K' V : Type}.
Variable eqb : K -> K -> bool.
Variable key : K -> K'.
Hypothesis eqb_key : forall a b, eqb a b = true <-> key a = key b.


Lemma eqb_congr (a b c : K) : eqb a b = true -> eqb a c = eqb b c.
Proof.
  intros H. apply eqb_key in H.
  apply eq_true_iff_eq. rewrite !eqb_key. now rewrite H.
Qed.

Lemma get_equiv (d : list (K * V)) (k k' : K) :
  eqb k k' = true -> Dict.get eqb d k = Dict.get eqb d k'.
Proof.
  intros H. induction d as [| [k0 v0] d IH]; simpl; [ reflexivity | ].
  assert (E : eqb k0 k = eqb k0 k').
  { apply eq_true_iff_eq. rewrite !eqb_key. apply eqb_key in H.
    now rewrite H. }
  now rewrite E, IH.
Qed.

Lemma get_set (d : list (K * V)) (k : K) (v : V) (k' : K) :
  Dict.get eqb (Dict.set eqb d k v) k'
  = if eqb k k' then Some v else Dict.get eqb d k'.
Proof.
  induction d as [| [k0 v0] d IH]; simpl; [ reflexivity | ].
  destruct (eqb k0 k) eqn:E0; simpl.
  - rewrite (eqb_congr k0 k k' E0). now destruct (eqb k k').
  - rewrite IH.
    destruct (eqb k0 k') eqn:E1, (eqb k k') eqn:E2; try reflexivity.
    apply eqb_key in E1, E2.
    assert (E : eqb k0 k = true) by (apply eqb_key; congruence).
    congruence.
Qed.



End DictFacts.

Lemma py_eqb_key (a b : constant) : py_eqb a b = true <-> key_of a = key_of b.
Proof.
  destruct a as [ | [ | ] | m | s | ], b as [ | [ | ] | n | t | ];
    unfold py_eqb, as_int, key_of;
    try (split; [ reflexivity | reflexivity ]);
    try (split; discriminate);
    try (rewrite N.eqb_eq; split; congruence);
    try (rewrite String.eqb_eq; split; congruence).
Qed.

Lemma string_eqb_key (a b : string) : String.eqb a b = true <-> id a = id b.
Proof. apply String.eqb_eq. Qed.


(** ** OpenAPI emitter *)

Lemma openapi_step_lookup (ps ps' : paths_dict) (e : APIEndpoint) :
  openapi_step ps e = Ok ps' ->
  exists op,
    operation_of e = Ok op /\
    forall p m,
      paths_lookup ps' p m =
      if py_eqb (path e) p && String.eqb (method e) m then Some op
      else paths_lookup ps p m.
Proof.
  unfold openapi_step.
  destruct (operation_of e) as [op | x]; [ | discriminate ].
  intros [= <-]. exists op. split; [ reflexivity | ].
  intros p m. unfold paths_lookup.
  rewrite (get_set py_eqb key_of py_eqb_key).
  set (ps1 := if Dict.mem py_eqb ps (path e) then ps
              else Dict.set py_eqb ps (path e) []).
  assert (H1 : forall q,
    match Dict.get py_eqb ps1 q with
    | Some d => Dict.get String.eqb d m
    | None => None
    end =
    match Dict.get py_eqb ps q with
    | Some d => Dict.get String.eqb d m
    | None => None
    end).
  { intros q. unfold ps1, Dict.mem.
    destruct (Dict.get py_eqb ps (path e)) eqn:G; [ reflexivity | ].
    rewrite (get_set py_eqb key_of py_eqb_key).
    destruct (py_eqb (path e) q) eqn:E; [ | reflexivity ].
    rewrite <- (get_equiv py_eqb key_of py_eqb_key ps _ _ E), G.
    reflexivity. }
  destruct (py_eqb (path e) p) eqn:E; simpl; [ | apply H1 ].
  rewrite (get_set String.eqb id string_eqb_key).
  destruct (String.eqb (method e) m); [ reflexivity | ].
  rewrite <- H1. unfold path_entry.
  rewrite (get_equiv py_eqb key_of py_eqb_key ps1 _ _ E).
  now destruct (Dict.get py_eqb ps1 p).
Qed.

Lemma openapi_paths_app (a b : Catalog) (ps : paths_dict) :
  openapi_paths (a ++ b) ps =
  match openapi_paths a ps with
  | Ok ps' => openapi_paths b ps'
  | Raise x => Raise x
  end.
Proof.
  revert ps. induction a as [| e a IH]; intros ps; simpl; [ reflexivity | ].
  destruct (openapi_step ps e); [ apply IH | reflexivity ].
Qed.


Lemma oa_parameters_ok (s : string) (params : list parameter) :
  exists l, oa_parameters (CStr s) params = Ok l /\
            map oa_name l = map param_name params /\
            map oa_schema_type l
            = map (fun q => schema_type (param_type q)) params.
Proof.
  induction params as [| q params (l & Hl & Hn & Ht)]; simpl.
  - exists []. repeat split.
  - rewrite Hl. eexists. split; [ reflexivity | ]. simpl.
    now rewrite Hn, Ht.
Qed.




(** ** Markdown emitter *)















(** ** A parameter without annotation *)




(** ** Rendering, re-parsing and rendering again *)

Module ReparseFacts.
Import Reparse.



Lemma take_while_app (p : ascii -> bool) (w rest : string) :
  all_chars p w = true ->
  match rest with EmptyString => true | String c _ => negb (p c) end = true ->
  PyStr.take_while p (w ++ rest) = w /\ PyStr.drop_while p (w ++ rest) = rest.
Proof.
  intros Hw Hr. induction w as [| c w IH]; simpl in *.
  - destruct rest as [| c r]; [ now split | ]. simpl.
    apply negb_true_iff in Hr. rewrite Hr. now split.
  - apply andb_true_iff in Hw. destruct Hw as [Hc Hw].
    rewrite Hc. destruct (IH Hw) as [-> ->]. now split.
Qed.












End ReparseFacts.











(** ** The scenarios of the specification *)

(** [@obj.get("/x/{id}")] followed by [@requires_auth()]. *)
Example route_then_marker :
  inspect_decorators
    [Call (Attribute (Name "obj") "get") [Constant (CStr "/x/{id}")] [];
     Call (Name "requires_auth") [] []]
    initial_vars
  = Ok {| v_path := CStr "/x/{id}"; v_method := Some "get"; v_auth := true |}.
Proof. reflexivity. Qed.

(** [@deco1] followed by [@router.post("/a")]. *)
Example bare_name_then_route :
  inspect_decorators
    [Name "deco1";
     Call (Attribute (Name "router") "post") [Constant (CStr "/a")] []]
    initial_vars
  = Ok {| v_path := CStr "/a"; v_method := Some "post"; v_auth := false |}.
Proof. reflexivity. Qed.

(** A parameter named in the path template is a path parameter, another
    one a query parameter. *)
Example parameter_locations :
  param_location (CStr "/x/{id}") "id" = Ok "path" /\
  param_location (CStr "/x/{id}") "q" = Ok "query".
Proof. split; reflexivity. Qed.

(** A record without docstring makes both emitters raise. *)
Example emitters_need_a_docstring :
  let r := {| path := CStr "/a"; method := "get"; description := DescEmpty;
              parameters := []; response := None; auth_required := false |} in
  generate_openapi_spec [r] = Raise AttributeError /\
  generate_markdown_docs [r] = Raise AttributeError.
Proof. split; reflexivity. Qed.

(** A module with a helper function only: nothing is recorded. *)
Example helper_only_module :
  parse_fastapi_app (fun s => s)
    (fun _ => Ok [FunctionDef "helper" (mk_arguments [] [] []) [Simple] [] None])
    "def helper(): pass" []
  = (Ok tt, []).
Proof. reflexivity. Qed.

(** A text that does not parse: the Catalog is the one before the call. *)
Example unparsable_text :
  parse_fastapi_app (fun s => s) (fun _ => Raise SyntaxError)
    "def (" [dup_record "Kept. "]
  = (Ok tt, [dup_record "Kept. "]).
Proof. reflexivity. Qed.

(** A route method of a class is dispatched by the class and again by the
    walk: it is recorded twice. *)
Example class_member_visited_twice :
  exists r,
    parse_fastapi_app (fun s => s)
      (fun _ => Ok [ClassDef "Items"
                      [FunctionDef "read" (mk_arguments [] [mk_arg "self" None] [])
                         [Simple] [router_get [Constant (CStr "/items")] []] None]
                      []])
      "class Items: ..." []
    = (Ok tt, [r; r]).
Proof. eexists. reflexivity. Qed.

(** ** The Catalog after a parse *)

Section ParseFacts.

Variable cleandoc : string -> string.
Variable ast_parse : string -> result (list stmt).

Lemma _parse_endpoint_appends node class_name cat :
  _parse_endpoint cleandoc node class_name cat
  = (Ok tt, cat ++ function_records cleandoc node).
Proof.
  unfold function_records.
  destruct (inspect_decorators (fd_decorator_list node) initial_vars)
    as [vars | e] eqn:Hi.
  - destruct (determined vars) eqn:Hd.
    + now apply _parse_endpoint_determined.
    + rewrite app_nil_r. now apply _parse_endpoint_undetermined with vars.
  - rewrite app_nil_r. now apply _parse_endpoint_raised with e.
Qed.

Lemma for_each_appends {X} (f : X -> M unit) (g : X -> list APIEndpoint)
    (l : list X) :
  (forall x cat, f x cat = (Ok tt, cat ++ g x)) ->
  forall cat, for_each l f cat = (Ok tt, cat ++ flat_map g l).
Proof.
  intros H. induction l as [| x l IH]; intros cat; simpl.
  - now rewrite app_nil_r.
  - unfold bind. rewrite H, IH. now rewrite app_assoc.
Qed.

Lemma dispatch_appends node cat :
  dispatch cleandoc node cat = (Ok tt, cat ++ node_records cleandoc node).
Proof.
  destruct node; simpl; unfold ret; rewrite ?app_nil_r; try reflexivity.
  - apply _parse_endpoint_appends.
  - unfold _parse_router_class. apply for_each_appends.
    intros item c. destruct item; unfold ret; rewrite ?app_nil_r;
      try reflexivity.
    apply _parse_endpoint_appends.
Qed.

Lemma parse_appends code tree cat :
  ast_parse code = Ok tree ->
  parse_fastapi_app cleandoc ast_parse code cat
  = (Ok tt, cat ++ flat_map (node_records cleandoc) (walk tree)).
Proof.
  intros Ht.
  unfold parse_fastapi_app, try_except, parse_fastapi_app_body, bind, lift.
  rewrite Ht.
  now rewrite (for_each_appends _ _ _ dispatch_appends).
Qed.

End ParseFacts.

(** The Catalog after a parse, whether the text parses or not. *)
Lemma parse_outcome
    (cleandoc : string -> string)
    (ast_parse : string -> result (list stmt))
    (code : string) (cat : Catalog) :
  parse_fastapi_app cleandoc ast_parse code cat
  = (Ok tt,
     cat ++ match ast_parse code with
            | Ok tree => flat_map (node_records cleandoc) (walk tree)
            | Raise _ => []
            end).
Proof.
  destruct (ast_parse code) as [tree | e] eqn:Ht.
  - now apply parse_appends.
  - rewrite app_nil_r.
    unfold parse_fastapi_app, try_except, parse_fastapi_app_body, bind, lift.
    now rewrite Ht.
Qed.


(** ** The order of the walk *)

Lemma walk_queue_closed (fuel : nat) :
  forall todo, forest_size todo <= fuel ->
    (forall n, In n todo -> In n (walk_queue fuel todo)) /\
    (forall n, In n (walk_queue fuel todo) ->
       exists before_ after_,
         walk_queue fuel todo = before_ ++ n :: after_ /\
         forall c, In c (children n) -> In c after_).
Proof.
  induction fuel as [| k IH]; intros todo Hsize.
  - destruct todo as [| s l]; [ split; intros n [] | ].
    simpl in Hsize. rewrite stmt_size_children in Hsize. lia.
  - destruct todo as [| node rest]; [ split; intros n [] | ].
    simpl in Hsize. rewrite stmt_size_children in Hsize.
    assert (Hk : forest_size (rest ++ children node) <= k)
      by (rewrite forest_size_app; lia).
    destruct (IH _ Hk) as [IH1 IH2].
    simpl. split.
    + intros n [-> | Hn]; [ now left | right ].
      apply IH1. apply in_or_app. now left.
    + intros n [-> | Hn].
      * exists [], (walk_queue k (rest ++ children n)).
        split; [ reflexivity | ].
        intros c Hc. apply IH1. apply in_or_app. now right.
      * destruct (IH2 n Hn) as (b & a & Hw & Hc).
        exists (node :: b), a. split; [ now rewrite Hw | exact Hc ].
Qed.


Lemma walk_top_level (tree : list stmt) (n : stmt) :
  In n tree -> In n (walk tree).
Proof.
  unfold walk.
  apply (proj1 (walk_queue_closed (forest_size tree) tree (le_n _))).
Qed.




(** ** What the decorator inspection ends with *)

Lemma inspect_decorator_outcome (vars : deco_vars) (d : expr) :
  if malformed_route d
  then inspect_decorator vars d = Raise AttributeError
  else exists vars',
         inspect_decorator vars d = Ok vars' /\
         v_auth vars' = v_auth vars || is_auth_marker d /\
         (is_route_call d = true ->
          exists attr, v_method vars' = Some (PyStr.lower attr)) /\
         (is_route_call d = false -> v_method vars' = v_method vars).
Proof.
  destruct d as [ | | | | f a k | | | ]; simpl;
    try (exists vars; rewrite orb_false_r; repeat split; discriminate).
  destruct f as [ id | | o attr | | | | | ]; simpl;
    try (exists vars; rewrite orb_false_r; repeat split; discriminate).
  - destruct (String.eqb id "requires_auth"); eexists;
      (split; [ reflexivity | ]); simpl;
      rewrite ?orb_true_r, ?orb_false_r; repeat split; discriminate.
  - rewrite scan_keywords_spec.
    destruct (forallb is_literal (path_keyword_values k)); simpl;
      [ | reflexivity ].
    eexists. split; [ reflexivity | ]. simpl. rewrite orb_false_r.
    repeat split; [ intros _; now exists attr | discriminate ].
Qed.

(** X3: the decorator inspection raises exactly when some call decorator
    with an attribute callee has a keyword [path] whose value is no
    literal, and then with an [AttributeError]; otherwise it ends
    normally. *)
Theorem inspection_raises_iff_malformed
    (decorators : list expr) (vars : deco_vars) :
  if existsb malformed_route decorators
  then inspect_decorators decorators vars = Raise AttributeError
  else exists vars', inspect_decorators decorators vars = Ok vars'.
Proof.
  revert vars. induction decorators as [| d ds IH]; intros vars; simpl.
  - eauto.
  - pose proof (inspect_decorator_outcome vars d) as Hd.
    destruct (malformed_route d); simpl.
    + now rewrite Hd.
    + destruct Hd as (v & -> & _). apply IH.
Qed.

(** X4: when the inspection ends normally, [auth_required] is true
    exactly when some decorator is a call of the bare name
    [requires_auth], wherever it stands among the decorators. *)
Theorem auth_required_iff_marker
    (decorators : list expr) (vars : deco_vars) :
  inspect_decorators decorators initial_vars = Ok vars ->
  v_auth vars = existsb is_auth_marker decorators.
Proof.
  assert (H : forall ds v0 v,
            inspect_decorators ds v0 = Ok v ->
            v_auth v = v_auth v0 || existsb is_auth_marker ds).
  { induction ds as [| d ds IH]; intros v0 v; simpl.
    - intros [= <-]. now rewrite orb_false_r.
    - pose proof (inspect_decorator_outcome v0 d) as Hd.
      destruct (malformed_route d).
      + rewrite Hd. discriminate.
      + destruct Hd as (v1 & -> & Ha & _). intros Hv.
        rewrite (IH _ _ Hv), Ha. now rewrite orb_assoc. }
  intros Hv. now rewrite (H _ _ _ Hv).
Qed.

Lemma auth_required_iff_marker_witness :
  v_auth {| v_path := CStr "/x/{id}"; v_method := Some "get"; v_auth := true |}
  = existsb is_auth_marker
      [Call (Name "requires_auth") [] [];
       Call (Attribute (Name "obj") "get") [Constant (CStr "/x/{id}")] []].
Proof.
  apply (auth_required_iff_marker
           [Call (Name "requires_auth") [] [];
            Call (Attribute (Name "obj") "get") [Constant (CStr "/x/{id}")] []]).
  reflexivity.
Defined.

(** ** What every record of the Catalog satisfies *)

Lemma lower_char_idempotent (c : ascii) :
  PyStr.lower_char (PyStr.lower_char c) = PyStr.lower_char c.
Proof. destruct c as [[] [] [] [] [] [] [] []]; reflexivity. Qed.

Lemma lower_idempotent (s : string) :
  PyStr.lower (PyStr.lower s) = PyStr.lower s.
Proof.
  unfold PyStr.lower. induction s as [| c s IH]; simpl; [ reflexivity | ].
  now rewrite lower_char_idempotent, IH.
Qed.

Lemma inspect_method_lowered (decorators : list expr) :
  forall v0 v,
    inspect_decorators decorators v0 = Ok v ->
    (forall m, v_method v0 = Some m -> PyStr.lower m = m) ->
    forall m, v_method v = Some m -> PyStr.lower m = m.
Proof.
  induction decorators as [| d ds IH]; intros v0 v; simpl.
  - now intros [= <-].
  - pose proof (inspect_decorator_outcome v0 d) as Hd.
    destruct (malformed_route d); [ rewrite Hd; discriminate | ].
    destruct Hd as (v1 & -> & _ & Hr & Hn). intros Hv H0.
    apply (IH _ _ Hv). intros m Hm.
    destruct (is_route_call d).
    + destruct (Hr eq_refl) as (attr & Ha). rewrite Ha in Hm.
      injection Hm as <-. apply lower_idempotent.
    + rewrite (Hn eq_refl) in Hm. now apply H0.
Qed.

Lemma function_records_ok (cleandoc : string -> string) (node : function_def) :
  forallb record_ok (function_records cleandoc node) = true.
Proof.
  unfold function_records.
  destruct (inspect_decorators (fd_decorator_list node) initial_vars)
    as [vars |] eqn:Hi; [ | reflexivity ].
  destruct (determined vars) eqn:Hd; [ | reflexivity ].
  simpl. rewrite andb_true_r. unfold record_ok, determined in *. simpl.
  apply andb_true_iff in Hd. destruct Hd as [Hp Hm].
  rewrite Hp. simpl.
  destruct (v_method vars) as [m |] eqn:Em; [ | discriminate ].
  simpl in *. rewrite Hm. simpl.
  rewrite (inspect_method_lowered _ _ _ Hi); [ | discriminate | exact Em ].
  rewrite String.eqb_refl. simpl.
  unfold build_parameters. apply forallb_forall.
  intros x Hx. apply in_map_iff in Hx. now destruct Hx as (y & <- & _).
Qed.

Lemma node_records_ok (cleandoc : string -> string) (node : stmt) :
  forallb record_ok (node_records cleandoc node) = true.
Proof.
  destruct node; simpl; try reflexivity.
  - apply function_records_ok.
  - induction body as [| item body IH]; simpl; [ reflexivity | ].
    rewrite forallb_app, IH, andb_true_r.
    destruct item; try reflexivity. apply function_records_ok.
Qed.

(** X5: a parse keeps the Catalog well formed: if every record before
    has a path that is true in a test, a non-empty lower-case method and
    only required parameters, so has every record after, whatever the
    text.  The Catalog of a new generator is empty and so well formed. *)
Theorem parse_keeps_records_ok
    (cleandoc : string -> string)
    (ast_parse : string -> result (list stmt))
    (code : string) (cat : Catalog) :
  forallb record_ok cat = true ->
  exists cat',
    parse_fastapi_app cleandoc ast_parse code cat = (Ok tt, cat') /\
    forallb record_ok cat' = true.
Proof.
  intros Hcat.
  destruct (ast_parse code) as [tree | e] eqn:Ht.
  - exists (cat ++ flat_map (node_records cleandoc) (walk tree)).
    split; [ exact (parse_appends cleandoc ast_parse code tree cat Ht) | ].
    rewrite forallb_app, Hcat. simpl.
    induction (walk tree) as [| node nodes IH]; simpl; [ reflexivity | ].
    now rewrite forallb_app, node_records_ok, IH.
  - exists cat. split; [ | exact Hcat ].
    unfold parse_fastapi_app, try_except, parse_fastapi_app_body, bind, lift.
    now rewrite Ht.
Qed.

Lemma parse_keeps_records_ok_witness :
  exists cat',
    parse_fastapi_app (fun s => s)
      (fun _ => Ok [FunctionDef "read_item" (fd_args read_item) []
                      (fd_decorator_list read_item) None])
      "def read_item(item_id: int, q: str): ..." []
    = (Ok tt, cat') /\
    forallb record_ok cat' = true.
Proof.
  apply (parse_keeps_records_ok (fun s => s)
           (fun _ => Ok [FunctionDef "read_item" (fd_args read_item) []
                           (fd_decorator_list read_item) None])
           "def read_item(item_id: int, q: str): ..." []).
  reflexivity.
Defined.

(** ** Method distribution *)

Lemma upper_char_idempotent (c : ascii) :
  PyStr.upper_char (PyStr.upper_char c) = PyStr.upper_char c.
Proof. destruct c as [[] [] [] [] [] [] [] []]; reflexivity. Qed.

Lemma upper_idempotent (s : string) :
  PyStr.upper (PyStr.upper s) = PyStr.upper s.
Proof.
  unfold PyStr.upper. induction s as [| c s IH]; simpl; [ reflexivity | ].
  now rewrite upper_char_idempotent, IH.
Qed.

Lemma distribution_get (endpoints : Catalog) (m : string) :
  Dict.get String.eqb (_get_methods_distribution endpoints) m =
  match count_method m endpoints with
  | 0 => None
  | S n => Some (S n)
  end.
Proof.
  unfold _get_methods_distribution, count_method.
  induction endpoints as [| e l IH] using rev_ind; [ reflexivity | ].
  rewrite fold_left_app, filter_app, length_app. simpl.
  unfold distribution_step at 1.
  rewrite (get_set String.eqb id string_eqb_key).
  destruct (String.eqb (PyStr.upper (method e)) m) eqn:E; simpl.
  - apply String.eqb_eq in E. rewrite E, IH.
    destruct (List.length _); simpl; f_equal; lia.
  - rewrite IH, Nat.add_0_r. reflexivity.
Qed.

Lemma sum_counts_step (d : list (string * nat)) (k : string) :
  sum_counts
    (Dict.set String.eqb d k
       (match Dict.get String.eqb d k with Some n => n | None => 0 end + 1))
  = sum_counts d + 1.
Proof.
  induction d as [| [k0 v0] d IH]; simpl; [ reflexivity | ].
  destruct (String.eqb k0 k); simpl; [ lia | ].
  rewrite IH. lia.
Qed.

(** X6: in the method distribution the entry of an upper-case method name
    is the number of records with that method, case ignored; a method
    that no record has gets no entry, every key is upper case, and the
    counts add up to the number of records. *)
Theorem methods_distribution_counts (endpoints : Catalog) :
  (forall m,
     Dict.get String.eqb (_get_methods_distribution endpoints) m =
     match count_method m endpoints with
     | 0 => None
     | S n => Some (S n)
     end) /\
  (forall m n,
     Dict.get String.eqb (_get_methods_distribution endpoints) m = Some n ->
     PyStr.upper m = m) /\
  sum_counts (_get_methods_distribution endpoints) = List.length endpoints.
Proof.
  split; [ apply distribution_get | split ].
  - intros m n H. rewrite distribution_get in H. unfold count_method in H.
    destruct (filter _ endpoints) as [| e l] eqn:F; [ discriminate | ].
    assert (He : In e (filter
                         (fun e => String.eqb (PyStr.upper (method e)) m)
                         endpoints)) by (rewrite F; now left).
    apply filter_In in He. destruct He as [_ He].
    apply String.eqb_eq in He. rewrite <- He. apply upper_idempotent.
  - unfold _get_methods_distribution.
    induction endpoints as [| e l IH] using rev_ind; [ reflexivity | ].
    rewrite fold_left_app, length_app. simpl.
    unfold distribution_step at 1. now rewrite sum_counts_step, IH.
Qed.

(** ** When the OpenAPI emitter ends normally, and what it holds *)

Lemma oa_parameters_outcome (p : constant) (params : list parameter) :
  match p, params with
  | CStr _, _ | _, [] => exists l, oa_parameters p params = Ok l
  | _, _ :: _ => oa_parameters p params = Raise TypeError
  end.
Proof.
  destruct p as [ | b | n | s | ];
    try (destruct params; simpl; eauto; fail).
  destruct (oa_parameters_ok s params) as (l & Hl & _). eauto.
Qed.

Lemma operation_of_outcome (e : APIEndpoint) :
  if openapi_ok e then exists op, operation_of e = Ok op
  else exists x, operation_of e = Raise x.
Proof.
  unfold openapi_ok, has_doc, path_is_str, operation_of, description_get.
  destruct (description e); simpl; [ eauto | ].
  pose proof (oa_parameters_outcome (path e) (parameters e)) as H.
  destruct (path e) as [ | b | n | s | ], (parameters e) as [| q qs];
    simpl in *;
    first [ now eauto
          | destruct H as (l & ->); now eauto
          | rewrite H; now eauto ].
Qed.

Lemma openapi_paths_outcome (endpoints : Catalog) :
  forall ps,
    if forallb openapi_ok endpoints
    then exists ps', openapi_paths endpoints ps = Ok ps'
    else exists x, openapi_paths endpoints ps = Raise x.
Proof.
  induction endpoints as [| e l IH]; intros ps; simpl; [ eauto | ].
  unfold openapi_step.
  pose proof (operation_of_outcome e) as He.
  destruct (openapi_ok e); simpl.
  - destruct He as (op & ->). apply IH.
  - destruct He as (x & ->). eauto.
Qed.

(** When [generate_openapi_spec] ends normally. *)
Lemma openapi_outcome (endpoints : Catalog) :
  if forallb openapi_ok endpoints
  then exists spec, generate_openapi_spec endpoints = Ok spec
  else exists x, generate_openapi_spec endpoints = Raise x.
Proof.
  unfold generate_openapi_spec.
  pose proof (openapi_paths_outcome endpoints []) as H.
  destruct (forallb openapi_ok endpoints).
  - destruct H as (ps & ->). eauto.
  - destruct H as (x & ->). eauto.
Qed.

(** X7: [generate_openapi_spec] ends normally exactly when every record
    of the Catalog has a parsed docstring and, unless it has no
    parameter, a string for its path; otherwise it raises. *)
Theorem openapi_succeeds_iff_renderable (endpoints : Catalog) :
  if forallb openapi_ok endpoints
  then exists spec, generate_openapi_spec endpoints = Ok spec
  else exists x, generate_openapi_spec endpoints = Raise x.
Proof.
  unfold generate_openapi_spec.
  pose proof (openapi_paths_outcome endpoints []) as H.
  destruct (forallb openapi_ok endpoints).
  - destruct H as (ps & ->). eauto.
  - destruct H as (x & ->). eauto.
Qed.

Lemma openapi_paths_lookup (endpoints : Catalog) :
  forall ps0 ps,
    openapi_paths endpoints ps0 = Ok ps ->
    forall p m,
      paths_lookup ps p m =
      match last_with_key p m endpoints with
      | Some e =>
          match operation_of e with Ok op => Some op | Raise _ => None end
      | None => paths_lookup ps0 p m
      end.
Proof.
  unfold last_with_key.
  induction endpoints as [| e l IH] using rev_ind; intros ps0 ps.
  - simpl. now intros [= <-].
  - rewrite openapi_paths_app.
    destruct (openapi_paths l ps0) as [ps1 |] eqn:H1; [ | discriminate ].
    simpl.
    destruct (openapi_step ps1 e) as [ps2 |] eqn:H2; [ | discriminate ].
    intros [= <-] p m.
    destruct (openapi_step_lookup _ _ _ H2) as (op & Hop & Hlook).
    rewrite Hlook, rev_app_distr. simpl.
    destruct (py_eqb (path e) p && String.eqb (method e) m).
    + now rewrite Hop.
    + now apply IH.
Qed.

(** X8: in the document of [generate_openapi_spec] the entry
    [paths[p][m]] is the operation of the last record of the Catalog with
    the path [p] and the method [m], so records of one path with
    different methods share the path entry; there is no entry when no
    record has that path and method. *)
Theorem openapi_entry_is_last_record (endpoints : Catalog) (spec : openapi_spec) :
  generate_openapi_spec endpoints = Ok spec ->
  forall p m,
    lookup_operation spec p m =
    match last_with_key p m endpoints with
    | Some e =>
        match operation_of e with Ok op => Some op | Raise _ => None end
    | None => None
    end.
Proof.
  unfold generate_openapi_spec.
  destruct (openapi_paths endpoints []) as [ps |] eqn:H; [ | discriminate ].
  intros [= <-] p m. unfold lookup_operation. simpl.
  apply (openapi_paths_lookup endpoints [] ps H p m).
Qed.

(** Two records of [get /dup], each with a docstring. *)
Lemma openapi_entry_is_last_record_witness :
  lookup_operation
    {| openapi := "3.0.0"; info_title := "API Documentation";
       info_version := "1.0.0";
       paths :=
         [(CStr "/dup",
           [("get",
             {| op_summary := "Second. "; op_parameters := [];
                op_response_type := "object"; op_security := false |})])] |}
    (CStr "/dup") "get" =
  match last_with_key (CStr "/dup") "get"
          [dup_record "First. "; dup_record "Second. "] with
  | Some e =>
      match operation_of e with Ok op => Some op | Raise _ => None end
  | None => None
  end.
Proof.
  apply (openapi_entry_is_last_record
           [dup_record "First. "; dup_record "Second. "]).
  reflexivity.
Defined.

(** ** The groups of the Markdown emitter *)

Section KeyFacts.

Context {K K' V : Type}.
Variable eqb : K -> K -> bool.
Variable key : K -> K'.
Hypothesis eqb_key : forall a b, eqb a b = true <-> key a = key b.





End KeyFacts.












(** ** The analysis summary *)



(** X12: once the Catalog holds a record that [generate_openapi_spec]
    cannot render, such as the record of a handler without docstring,
    [analyze_api_code] returns the empty dict for every text, and the
    Catalog after the call holds such a record again: every later
    analysis of the same generator is empty as well. *)
Theorem analysis_stays_empty
    (cleandoc : string -> string)
    (ast_parse : string -> result (list stmt))
    (code : string) (cat : Catalog) :
  forallb openapi_ok cat = false ->
  exists cat',
    analyze_api_code cleandoc ast_parse code cat = (Ok None, cat') /\
    forallb openapi_ok cat' = false.
Proof.
  intros Hbad.
  pose proof (parse_outcome cleandoc ast_parse code cat) as Hp.
  eexists. split.
  - unfold analyze_api_code, try_except, analyze_api_code_body, bind,
      get_endpoints, lift, ret.
    rewrite Hp.
    match goal with
    | |- context [generate_openapi_spec ?c] =>
        pose proof (openapi_outcome c) as Ho;
        rewrite forallb_app, Hbad in Ho; simpl in Ho;
        destruct Ho as (x & ->)
    end.
    reflexivity.
  - now rewrite forallb_app, Hbad.
Qed.

(** A Catalog with the record of a handler without docstring. *)
Lemma analysis_stays_empty_witness :
  exists cat',
    analyze_api_code (fun s => s) (fun _ => Raise SyntaxError) "def ("
      [build_endpoint (fun s => s)
         (handler [router_get [Constant (CStr "/x")] []])
         {| v_path := CStr "/x"; v_method := Some "get"; v_auth := false |}]
    = (Ok None, cat') /\
    forallb openapi_ok cat' = false.
Proof.
  apply (analysis_stays_empty (fun s => s) (fun _ => Raise SyntaxError) "def ("
           [build_endpoint (fun s => s)
              (handler [router_get [Constant (CStr "/x")] []])
              {| v_path := CStr "/x"; v_method := Some "get";
                 v_auth := false |}]).
  reflexivity.
Defined.

(** ** More on the docstring interpreter *)

Lemma docstring_loop_no_header (raws : list string) :
  forall doc,
    forallb (fun l => negb (is_header l)) (map PyStr.strip raws) = true ->
    fold_left docstring_step raws (SDescription, doc) =
    (SDescription,
     {| doc_description :=
          (doc_description doc ++
           spaced (filter (fun l => negb (PyStr.is_empty l))
                     (map PyStr.strip raws)))%string;
        doc_parameters := doc_parameters doc;
        doc_returns := doc_returns doc;
        doc_raises := doc_raises doc |}).
Proof.
  induction raws as [| raw raws IH]; intros doc H; simpl.
  - rewrite append_nil_r. now destruct doc.
  - simpl in H. apply andb_true_iff in H. destruct H as [Hh Hr].
    unfold docstring_step at 2. unfold is_header in Hh.
    destruct (header_of (PyStr.strip raw)); [ discriminate | ].
    destruct (PyStr.is_empty (PyStr.strip raw)); simpl.
    + now apply IH.
    + rewrite (IH _ Hr). simpl. now rewrite !append_assoc.
Qed.

(** X13: a docstring without any header line goes to the description as
    a whole: the description is its non-empty trimmed lines, each
    followed by a blank, and the parameters, the returns text and the
    raises list are empty. *)
Theorem docstring_without_header (docstring : string) :
  forallb (fun l => negb (is_header l)) (trimmed_lines docstring) = true ->
  _parse_docstring docstring =
  {| doc_description :=
       spaced (filter (fun l => negb (PyStr.is_empty l))
                 (trimmed_lines docstring));
     doc_parameters := [];
     doc_returns := "";
     doc_raises := [] |}.
Proof.
  intros H. unfold _parse_docstring, trimmed_lines in *.
  now rewrite (docstring_loop_no_header _ empty_sections H).
Qed.

Lemma docstring_without_header_witness :
  _parse_docstring ("  Lists the items." ++ nl ++ nl ++ "Newest first.  ") =
  {| doc_description :=
       spaced (filter (fun l => negb (PyStr.is_empty l))
                 (trimmed_lines
                    ("  Lists the items." ++ nl ++ nl ++ "Newest first.  ")));
     doc_parameters := [];
     doc_returns := "";
     doc_raises := [] |}.
Proof.
  apply (docstring_without_header
           ("  Lists the items." ++ nl ++ nl ++ "Newest first.  ")).
  reflexivity.
Defined.

Lemma parameter_entries_get (texts : list string) (k : string) :
  Dict.get String.eqb (parameter_entries texts) k =
  match last_naming k texts with
  | Some l => option_map snd (param_match l)
  | None => None
  end.
Proof.
  unfold parameter_entries, last_naming.
  induction texts as [| l texts IH] using rev_ind; [ reflexivity | ].
  rewrite fold_left_app, rev_app_distr. simpl.
  destruct (param_match l) as [[k' v] |] eqn:E; simpl.
  - rewrite (get_set String.eqb id string_eqb_key).
    destruct (String.eqb k' k); [ now rewrite E | exact IH ].
  - exact IH.
Qed.

(** X14: the description stored for a parameter name is the text of the
    last line of the parameters sections that has the shape [name: text]
    with that name; a name that no such line gives has no entry. *)
Theorem docstring_parameter_last_wins (docstring : string) (k : string) :
  Dict.get String.eqb (doc_parameters (_parse_docstring docstring)) k =
  match last_naming k (lines_of SParameters (trimmed_lines docstring)) with
  | Some l => option_map snd (param_match l)
  | None => None
  end.
Proof.
  unfold _parse_docstring, lines_of, trimmed_lines.
  rewrite docstring_loop. simpl.
  pose proof (build_sections_fields
                (assigned (map PyStr.strip (PyStr.split nl_char docstring))))
    as (_ & Hp & _).
  rewrite Hp. apply parameter_entries_get.
Qed.

Lemma word_is_no_space (c : ascii) :
  PyStr.is_word c = true -> PyStr.is_space c = false.
Proof.
  destruct c as [[] [] [] [] [] [] [] []]; intros H;
    try reflexivity; discriminate.
Qed.

(** X15: a line made of a name, blanks, a colon, blanks and a text that
    is not empty and does not begin with a blank matches the parameter
    pattern with that name and that text, whatever further colons the
    text holds. *)
Theorem param_match_name_and_text (name ws1 ws2 text : string) :
  name <> EmptyString ->
  Reparse.all_chars PyStr.is_word name = true ->
  Reparse.all_chars PyStr.is_space ws1 = true ->
  Reparse.all_chars PyStr.is_space ws2 = true ->
  match text with
  | EmptyString => false
  | String c _ => negb (PyStr.is_space c)
  end = true ->
  param_match (name ++ ws1 ++ ":" ++ ws2 ++ text) = Some (name, text).
Proof.
  intros Hne Hname Hws1 Hws2 Htext.
  destruct name as [| c name']; [ congruence | ].
  pose proof Hname as Hc. simpl in Hc. apply andb_true_iff in Hc.
  destruct Hc as [Hc _].
  assert (Htext' : match text with
                   | EmptyString => true
                   | String c _ => negb (PyStr.is_space c)
                   end = true) by (destruct text; [ discriminate | exact Htext ]).
  destruct (ReparseFacts.take_while_app PyStr.is_word (String c name')
              (ws1 ++ ":" ++ ws2 ++ text) Hname) as [Ht Hd].
  { destruct ws1 as [| w ws1']; [ reflexivity | ]. simpl in *.
    apply andb_true_iff in Hws1. destruct Hws1 as [Hw _].
    destruct (PyStr.is_word w) eqn:E; [ | reflexivity ].
    apply word_is_no_space in E. congruence. }
  destruct (ReparseFacts.take_while_app PyStr.is_space ws1
              (":" ++ ws2 ++ text) Hws1 eq_refl) as [_ Hd1].
  destruct (ReparseFacts.take_while_app PyStr.is_space ws2 text Hws2 Htext')
    as [_ Hd2].
  unfold param_match.
  assert (H0 : PyStr.drop_while PyStr.is_space
                 (String c name' ++ ws1 ++ ":" ++ ws2 ++ text)
               = (String c name' ++ ws1 ++ ":" ++ ws2 ++ text)%string).
  { simpl. now rewrite (word_is_no_space c Hc). }
  rewrite H0, Ht, Hd, Hd1. simpl PyStr.is_empty. cbv iota.
  change ((":" ++ ws2 ++ text)%string) with (String ":" (ws2 ++ text)).
  cbv iota. rewrite Hd2.
  destruct text; [ discriminate | reflexivity ].
Qed.

Lemma param_match_name_and_text_witness :
  param_match ("user_id" ++ " " ++ ":" ++ "  " ++ "the id, format: uuid")
  = Some ("user_id", "the id, format: uuid").
Proof.
  apply (param_match_name_and_text "user_id" " " "  " "the id, format: uuid");
    try reflexivity.
  discriminate.
Defined.

Lemma split_not_nil (sep : ascii) (s : string) : PyStr.split sep s <> [].
Proof.
  destruct s as [| c s]; simpl; [ discriminate | ].
  destruct (Ascii.eqb c sep); [ discriminate | ].
  destruct (PyStr.split sep s); discriminate.
Qed.

Lemma split_glue (a b : string) :
  PyStr.split nl_char (a ++ nl ++ b)
  = PyStr.split nl_char a ++ PyStr.split nl_char b.
Proof.
  change ((nl ++ b)%string) with (String nl_char b).
  induction a as [| c a IH].
  - reflexivity.
  - change ((String c a ++ String nl_char b)%string)
      with (String c (a ++ String nl_char b)).
    cbn [PyStr.split]. rewrite IH.
    destruct (Ascii.eqb c nl_char); [ reflexivity | ].
    pose proof (split_not_nil nl_char a) as Hne.
    destruct (PyStr.split nl_char a); [ congruence | reflexivity ].
Qed.

Lemma split_one_line (h : string) :
  Reparse.all_chars (fun c => negb (Ascii.eqb c nl_char)) h = true ->
  PyStr.split nl_char h = [h].
Proof.
  induction h as [| c h IH]; simpl; [ reflexivity | ].
  intros H. apply andb_true_iff in H. destruct H as [Hc Hh].
  apply negb_true_iff in Hc. rewrite Hc, (IH Hh). reflexivity.
Qed.

(** X16: what follows the keyword on a header line is stored nowhere:
    two docstrings that differ in one line only, a header of the same
    section in both, give the same sections. *)
Theorem header_line_text_is_dropped (before_ header1 header2 after_ : string)
    (sec : section) :
  Reparse.all_chars (fun c => negb (Ascii.eqb c nl_char)) header1 = true ->
  Reparse.all_chars (fun c => negb (Ascii.eqb c nl_char)) header2 = true ->
  header_of (PyStr.strip header1) = Some sec ->
  header_of (PyStr.strip header2) = Some sec ->
  _parse_docstring (before_ ++ nl ++ header1 ++ nl ++ after_)
  = _parse_docstring (before_ ++ nl ++ header2 ++ nl ++ after_).
Proof.
  intros H1 H2 Hs1 Hs2. unfold _parse_docstring.
  rewrite !split_glue, !fold_left_app.
  rewrite (split_one_line _ H1), (split_one_line _ H2). simpl.
  assert (Hstep : forall st h,
            header_of (PyStr.strip h) = Some sec ->
            docstring_step st h = (sec, snd st)).
  { intros st h Hh. unfold docstring_step. now rewrite Hh. }
  now rewrite (Hstep _ _ Hs1), (Hstep _ _ Hs2).
Qed.

Lemma header_line_text_is_dropped_witness :
  _parse_docstring
    ("Adds." ++ nl ++ "Returns: the sum" ++ nl ++ "An integer.")
  = _parse_docstring
      ("Adds." ++ nl ++ "RETURNS:" ++ nl ++ "An integer.").
Proof.
  apply (header_line_text_is_dropped "Adds." "Returns: the sum" "RETURNS:"
           "An integer." SReturns); reflexivity.
Defined.
